(** * CameraAutoPlayblast: the playblast panel of CameraPlayblast.py

    A shallow embedding of [CameraPlayBlast] (src/CameraAutoPlayblast/
    CameraPlayblast.py) and of the Python and host operations it calls,
    followed by the properties of the orchestration flow.

    - [Py]     : the [str] methods the panel uses ([split], [replace], ...).
    - [Posix]  : [os.path] (the posixpath flavour) and a directory tree for
                 [os.path.isdir] and [os.makedirs].
    - [Maya]   : the scene and widget state, and the [maya.cmds] calls.
    - [Panel]  : the methods of [CameraPlayBlast], one definition each.
    - [Install]: [onMayaDroppedPythonFile] of drag_drop_install.py.
    - [Window] : [display], [showEvent] and [closeEvent] of [MainWindow]. *)

From Stdlib Require Import Ascii.
From Stdlib Require String.
From stdpp Require Import gmap strings list.

(** String concatenation takes part in simplification. *)
#[local] Arguments String.append !s1 s2 : simpl nomatch.

(* ===================================================================== *)
(** ** Python strings *)
(* ===================================================================== *)

Module Py.

(** [s.startswith(p)]. *)
Fixpoint startswith (s p : string) {struct p} : bool :=
  match p, s with
  | EmptyString, _ => true
  | String _ _, EmptyString => false
  | String a p', String b s' => if Ascii.eqb a b then startswith s' p' else false
  end.

(** [s.endswith(p)]: [p] is [s] or ends the tail of [s]. *)
Fixpoint endswith (s p : string) : bool :=
  String.eqb s p ||
  match s with
  | EmptyString => false
  | String _ s' => endswith s' p
  end.

(** [s.split(sep)] for a one-character separator, the only form the panel
    uses ([":"] and ["."]).  The result is never empty. *)
Fixpoint split (sep : ascii) (s : string) : list string :=
  match s with
  | EmptyString => [EmptyString]
  | String c s' =>
      if Ascii.eqb c sep then EmptyString :: split sep s'
      else match split sep s' with
           | [] => [String c EmptyString]
           | h :: t => String c h :: t
           end
  end.

(** [l[0]] and [l[-1]] on the result of a split. *)
Definition item_first (l : list string) : string := List.hd EmptyString l.
Definition item_last (l : list string) : string := List.last l EmptyString.

(** [sep.join(l)]. *)
Fixpoint join (sep : string) (l : list string) : string :=
  match l with
  | [] => EmptyString
  | [x] => x
  | x :: l' => x +:+ sep +:+ join sep l'
  end.

(** The scan of [s.replace(old, new)] for a non-empty [old]: left to right,
    non-overlapping.  [skip] counts the characters of a match still to be
    dropped. *)
Fixpoint replace_scan (old new : string) (skip : nat) (s : string) : string :=
  match s with
  | EmptyString => EmptyString
  | String c s' =>
      match skip with
      | S k => replace_scan old new k s'
      | O =>
          if startswith s old
          then new +:+ replace_scan old new (String.length old - 1) s'
          else String c (replace_scan old new 0 s')
      end
  end.

(** With an empty [old], Python puts [new] before every character and at
    the end. *)
Fixpoint intersperse_all (new s : string) : string :=
  match s with
  | EmptyString => new
  | String c s' => new +:+ String c (intersperse_all new s')
  end.

(** [s.replace(old, new)]. *)
Definition replace (s old new : string) : string :=
  match old with
  | EmptyString => intersperse_all new s
  | String _ _ => replace_scan old new 0 s
  end.

(** [sub in s]. *)
Fixpoint contains (s sub : string) : bool :=
  startswith s sub ||
  match s with
  | EmptyString => false
  | String _ s' => contains s' sub
  end.

(** [c in s] for a character. *)
Fixpoint has_char (c : ascii) (s : string) : bool :=
  match s with
  | EmptyString => false
  | String a s' => Ascii.eqb a c || has_char c s'
  end.

(** The text of [s] up to and including its last [sep]: what a split on
    [sep] leaves before its last item.  Empty when [sep] does not occur. *)
Fixpoint upto_last (sep : ascii) (s : string) : string :=
  match s with
  | EmptyString => EmptyString
  | String c s' => if has_char sep s then String c (upto_last sep s') else EmptyString
  end.

(** No occurrence of [old] in [pre +:+ rest] starts inside [pre]. *)
Fixpoint no_match_within (old pre rest : string) : bool :=
  match pre with
  | EmptyString => true
  | String _ pre' =>
      negb (startswith (pre +:+ rest) old) && no_match_within old pre' rest
  end.

(** [s.rstrip(c)] for a character: the trailing run of [c] is dropped. *)
Fixpoint all_char (c : ascii) (s : string) : bool :=
  match s with
  | EmptyString => true
  | String a s' => Ascii.eqb a c && all_char c s'
  end.

Fixpoint rstrip (c : ascii) (s : string) : string :=
  match s with
  | EmptyString => EmptyString
  | String a s' => if all_char c s then EmptyString else String a (rstrip c s')
  end.

(** Every [c] of [s] turned into [c']: what [s.replace(c, c')] comes to
    for two characters. *)
Fixpoint subst_char (c c' : ascii) (s : string) : string :=
  match s with
  | EmptyString => EmptyString
  | String a s' =>
      String (if Ascii.eqb a c then c' else a) (subst_char c c' s')
  end.

End Py.

(* ===================================================================== *)
(** ** os.path and the directory tree *)
(* ===================================================================== *)

(** Python exceptions as the panel meets them; all of them are instances
    of [Exception], the class the panel's [except] clause names. *)
Inductive Exception : Type :=
  | RuntimeError (msg : string)
  | OSError (msg : string).

(** [str(e)], what an f-string prints for [{e}]. *)
Definition str_exc (e : Exception) : string :=
  match e with RuntimeError m => m | OSError m => m end.

Module Posix.

(** [os.path.isabs]. *)
Definition isabs (p : string) : bool := Py.startswith p "/".

(** [os.path.join(a, b)]. *)
Definition join (a b : string) : string :=
  if Py.startswith b "/" then b
  else if String.eqb a "" || Py.endswith a "/" then a +:+ b
  else a +:+ "/" +:+ b.

(** The number of leading slashes [normpath] keeps: two are kept, three
    or more collapse to one. *)
Definition initial_slashes (path : string) : nat :=
  if Py.startswith path "/" then
    if Py.startswith path "//" && negb (Py.startswith path "///") then 2 else 1
  else 0.

Definition is_nil (l : list string) : bool :=
  match l with [] => true | _ => false end.

(** One turn of the loop of [normpath] over the components. *)
Definition norm_step (slashes : nat) (new_comps : list string) (comp : string)
  : list string :=
  if String.eqb comp "" || String.eqb comp "." then new_comps
  else if negb (String.eqb comp "..")
          || (Nat.eqb slashes 0 && is_nil new_comps)
          || (negb (is_nil new_comps) && String.eqb (List.last new_comps "") "..")
  then new_comps ++ [comp]
  else List.removelast new_comps.

Fixpoint slashes_string (n : nat) : string :=
  match n with O => "" | S k => "/" +:+ slashes_string k end.

(** [os.path.normpath]. *)
Definition normpath (path : string) : string :=
  if String.eqb path "" then "."
  else
    let slashes := initial_slashes path in
    let comps := fold_left (norm_step slashes) (Py.split "/" path) [] in
    let path' := slashes_string slashes +:+ Py.join "/" comps in
    if String.eqb path' "" then "." else path'.

(** [os.path.dirname]: the text up to the last slash, without the
    slashes that end it unless it is made of slashes only. *)
Definition dirname (p : string) : string :=
  let head := Py.upto_last "/" p in
  if negb (String.eqb head "") && negb (Py.all_char "/" head)
  then Py.rstrip "/" head
  else head.

(** [os.sep]. *)
Definition sep : string := "/".

(** [os.path.abspath], with the working directory passed in. *)
Definition abspath (cwd path : string) : string :=
  normpath (if isabs path then path else join cwd path).

(** The disk: the working directory of the process, and the directories
    and regular files that exist, each named by the components of its
    absolute path. *)
Record FS : Type := mkFS {
  cwd : string;
  dirs : gset (list string);
  files : gset (list string)
}.

Definition nonempty (c : string) : bool := negb (String.eqb c "").

(** The components a path names on this disk. *)
Definition resolve (fs : FS) (path : string) : list string :=
  List.filter nonempty (Py.split "/" (abspath (cwd fs) path)).

(** A component a path can be made of: not empty, no slash. *)
Definition simple (c : string) : Prop :=
  nonempty c = true /\ Py.has_char "/" c = false.

(** The components of an absolute path after normalisation. *)
Definition components (path : string) : list string :=
  fold_left (norm_step 1) (Py.split "/" path) [].

(** [os.path.isdir]. *)
Definition isdir (fs : FS) (path : string) : bool :=
  bool_decide (resolve fs path ∈ dirs fs).

(** The directories on the way to [cs], shortest first, [cs] itself last. *)
Definition ancestors (cs : list string) : list (list string) :=
  List.map (fun n => take n cs) (seq 1 (length cs)).

(** [os.makedirs(path, exist_ok=True)]: every missing directory on the way
    is created; a regular file on the way is an error. *)
Definition makedirs (path : string) (fs : FS) : Exception + FS :=
  let chain := ancestors (resolve fs path) in
  if existsb (fun d => bool_decide (d ∈ files fs)) chain
  then inl (OSError ("[Errno 17] File exists: '" +:+ path +:+ "'"))
  else inr (mkFS (cwd fs) (dirs fs ∪ list_to_set chain) (files fs)).

(** A file written at [path]. *)
Definition write_file (path : string) (fs : FS) : FS :=
  mkFS (cwd fs) (dirs fs) (files fs ∪ {[ resolve fs path ]}).

End Posix.

(* ===================================================================== *)
(** ** The host: scene, widgets and maya.cmds *)
(* ===================================================================== *)

Module Maya.

(** The keyword arguments of [cm.playblast]. *)
Record PlayblastArgs : Type := mkArgs {
  format : string;
  filename : string;
  forceOverwrite : bool;
  sequenceTime : bool;
  clearCache : bool;
  viewer : bool;
  showOrnaments : bool;
  fp : nat;
  percent : nat;
  compression : string;
  quality : nat;
  widthHeight : nat * nat
}.

(** What the panel sends to the host that a user can observe. *)
Inductive HostCall : Type :=
  | DisplayError (message : string)
  | LookThru (camera : string)
  | Playblast (args : PlayblastArgs).

(** The host decides which calls fail: [lookThru_raises camera] and
    [playblast_raises view filename] give the message of the exception
    raised, if any. *)
Record Host : Type := mkHost {
  lookThru_raises : string -> option string;
  playblast_raises : option string -> string -> option string
}.

Record State : Type := mkState {
  (** the line edit of the panel *)
  file_path_le : string;
  (** the rows of the list widget, and the texts of the selected rows *)
  connection_lwg : list string;
  selected_items : list string;
  (** [cm.file(query=True, sceneName=True, shortName=True)] *)
  scene_name : string;
  (** [cm.ls(type="camera")] *)
  camera_nodes : list string;
  (** the active selection of the scene *)
  selection : list string;
  (** the camera the active view looks through *)
  view : option string;
  disk : Posix.FS;
  (** the calls made so far, oldest first *)
  calls : list HostCall
}.

Definition set_file_path (text : string) (s : State) : State :=
  mkState text (connection_lwg s) (selected_items s) (scene_name s)
          (camera_nodes s) (selection s) (view s) (disk s) (calls s).

Definition set_lwg (items sel : list string) (s : State) : State :=
  mkState (file_path_le s) items sel (scene_name s) (camera_nodes s)
          (selection s) (view s) (disk s) (calls s).

Definition set_selection (sel : list string) (s : State) : State :=
  mkState (file_path_le s) (connection_lwg s) (selected_items s) (scene_name s)
          (camera_nodes s) sel (view s) (disk s) (calls s).

Definition set_view (v : option string) (s : State) : State :=
  mkState (file_path_le s) (connection_lwg s) (selected_items s) (scene_name s)
          (camera_nodes s) (selection s) v (disk s) (calls s).

Definition set_disk (d : Posix.FS) (s : State) : State :=
  mkState (file_path_le s) (connection_lwg s) (selected_items s) (scene_name s)
          (camera_nodes s) (selection s) (view s) d (calls s).

Definition log (c : HostCall) (s : State) : State :=
  mkState (file_path_le s) (connection_lwg s) (selected_items s) (scene_name s)
          (camera_nodes s) (selection s) (view s) (disk s) (calls s ++ [c]).

(** A call either returns a value or raises; the state goes on in both
    cases. *)
Inductive Result (A : Type) : Type :=
  | Returns (a : A)
  | Raises (e : Exception).
Arguments Returns {A} a.
Arguments Raises {A} e.

Definition M (A : Type) : Type := State -> Result A * State.

Definition ret {A} (a : A) : M A := fun s => (Returns a, s).

Definition bind {A B} (m : M A) (k : A -> M B) : M B :=
  fun s => match m s with
           | (Returns a, s') => k a s'
           | (Raises e, s') => (Raises e, s')
           end.

Definition raise {A} (e : Exception) : M A := fun s => (Raises e, s).

(** [try: body / except Exception as e: handler(e)]. *)
Definition try_except {A} (body : M A) (handler : Exception -> M A) : M A :=
  fun s => match body s with
           | (Returns a, s') => (Returns a, s')
           | (Raises e, s') => handler e s'
           end.

Definition gets {A} (f : State -> A) : M A := fun s => (Returns (f s), s).
Definition modify (f : State -> State) : M unit := fun s => (Returns tt, f s).

(** [for x in l: body(x)]. *)
Fixpoint for_each {A} (l : list A) (body : A -> M unit) : M unit :=
  match l with
  | [] => ret tt
  | x :: l' => bind (body x) (fun _ => for_each l' body)
  end.

#[export] Instance M_ret : MRet M := @ret.
#[export] Instance M_bind : MBind M := fun A B k m => bind m k.

(** [oM.MGlobal.displayError(message)]. *)
Definition displayError (message : string) : M unit :=
  modify (log (DisplayError message)).

(** [cm.file(query=True, sceneName=True, shortName=True)]. *)
Definition file_sceneName_shortName : M string := gets scene_name.

(** [cm.ls(type="camera")]. *)
Definition ls_cameras : M (list string) := gets camera_nodes.

(** [cm.ls(selection=True, type="camera")]: the selected nodes that are
    cameras, in selection order. *)
Definition ls_selection_cameras : M (list string) :=
  gets (fun s =>
    List.filter (fun n => bool_decide (n ∈ camera_nodes s)) (selection s)).

(** [cm.select(clear=True)] and [cm.select(items)]. *)
Definition select_clear : M unit := modify (set_selection []).
Definition select (items : list string) : M unit := modify (set_selection items).

Section Calls.

Variable host : Host.

(** [cm.lookThru(camera)]. *)
Definition lookThru (camera : string) : M unit :=
  modify (log (LookThru camera)) ;;
  match lookThru_raises host camera with
  | Some msg => raise (RuntimeError msg)
  | None => modify (set_view (Some camera))
  end.

(** [cm.playblast] with its keyword arguments: the movie is written unless the host fails. *)
Definition playblast (args : PlayblastArgs) : M unit :=
  modify (log (Playblast args)) ;;
  v ← gets view;
  match playblast_raises host v (filename args) with
  | Some msg => raise (RuntimeError msg)
  | None =>
      modify (fun s => set_disk (Posix.write_file (filename args) (disk s)) s)
  end.

End Calls.

(** [os.path.isdir], [os.makedirs(path, exist_ok=True)] and
    [os.path.abspath] on the disk of the state. *)
Definition os_path_isdir (path : string) : M bool :=
  gets (fun s => Posix.isdir (disk s) path).

Definition os_makedirs (path : string) : M unit :=
  fun s => match Posix.makedirs path (disk s) with
           | inl e => (Raises e, s)
           | inr d => (Returns tt, set_disk d s)
           end.

Definition os_path_abspath (path : string) : M string :=
  gets (fun s => Posix.abspath (Posix.cwd (disk s)) path).

End Maya.

(* ===================================================================== *)
(** ** class CameraPlayBlast *)
(* ===================================================================== *)

Module Panel.
Import Maya.

(** The backslash, and the one-character string of it. *)
Definition backslash_char : ascii := ascii_of_nat 92.
Definition backslash : string := String backslash_char EmptyString.

(** Python's [not s] for a string. *)
Definition is_empty (s : string) : bool := String.eqb s "".

(** [show_file_select_dialog]; [chosen] is what
    [QFileDialog.getExistingDirectory] returns, the empty string when the
    dialog is cancelled. *)
Definition show_file_select_dialog (chosen : string) : M unit :=
  let file_path := chosen in
  modify (set_file_path file_path).

(** [validate_and_get_filepath]. *)
Definition validate_and_get_filepath : M string :=
  text ← gets file_path_le;
  let filepath := Posix.normpath text in
  ok ← os_path_isdir filepath;
  if negb ok then
    displayError "File path doesn't exist. Please provide a valid path." ;;
    mret ""
  else mret filepath.

(** [ensure_directory]. *)
Definition ensure_directory (path : string) : M string :=
  os_makedirs path ;;
  os_path_abspath path.

(** [display_error]. *)
Definition display_error (message : string) : M unit := displayError message.

(** [get_scene_shot_name]. *)
Definition get_scene_shot_name : M string :=
  name ← file_sceneName_shortName;
  let shot_name := Py.item_first (Py.split "." name) in
  if is_empty shot_name then
    display_error "Scene name is missing. Please save the file and retry." ;;
    mret ""
  else mret shot_name.

Definition exclude_list : list string :=
  ["topShape"; "frontShape"; "sideShape"; "perspShape"].

(** [self.connection_lwg.addItem(QListWidgetItem(text))]. *)
Definition lwg_addItem (text : string) : M unit :=
  modify (fun s => set_lwg (connection_lwg s ++ [text]) (selected_items s) s).

(** [show_connections]. *)
Definition show_connections : M unit :=
  modify (set_lwg [] []) ;;
  cameras ← ls_cameras;
  for_each cameras (fun cam =>
    let cam_name := Py.item_last (Py.split ":" cam) in
    if negb (bool_decide (cam_name ∈ exclude_list)) then
      let transform_node := Py.replace cam "Shape" "" in
      lwg_addItem transform_node
    else mret tt) ;;
  select_clear.

(** [get_selected_cameras]. *)
Definition get_selected_cameras : M (list string) :=
  selected_cameras ← ls_selection_cameras;
  match selected_cameras with
  | [] =>
      display_error "No camera selected for the playblast. Please select a camera." ;;
      mret []
  | _ => mret selected_cameras
  end.

(** [current_selected]. *)
Definition current_selected : M unit :=
  selected ← gets selected_items;
  select_clear ;;
  select selected.

Section Capture.

Variable host : Host.

(** [execute_playblast]: the keyword arguments it passes, and the call. *)
Definition playblast_args (playblast_path : string) : PlayblastArgs :=
  mkArgs "qt" (Py.replace playblast_path backslash "/")
         true false true false true 4 100 "H.264" 100 (1920, 1080).

Definition execute_playblast (playblast_path : string) : M unit :=
  Maya.playblast host (playblast_args playblast_path).

(** The path [perform_playblast] builds for [camera]. *)
Definition playblast_path (camera playblast_dir : string) : string :=
  Posix.join playblast_dir (Py.item_last (Py.split ":" camera) +:+ ".mov").

(** [perform_playblast]. *)
Definition perform_playblast (camera playblast_dir : string) : M unit :=
  lookThru host camera ;;
  try_except
    (execute_playblast (playblast_path camera playblast_dir))
    (fun e => display_error
       ("Failed to create playblast for " +:+ camera +:+ ": " +:+ str_exc e)).

(** [playblast]. *)
Definition playblast : M unit :=
  filepath ← validate_and_get_filepath;
  if is_empty filepath then mret tt
  else
    shot_name ← get_scene_shot_name;
    if is_empty shot_name then mret tt
    else
      playblast_dir ← ensure_directory (Posix.join filepath shot_name);
      selected_cameras ← get_selected_cameras;
      match selected_cameras with
      | [] => mret tt
      | _ =>
          for_each selected_cameras
            (fun camera => perform_playblast camera playblast_dir)
      end.

End Capture.

End Panel.

(* ===================================================================== *)
(** ** drag_drop_install.py *)
(* ===================================================================== *)

Module Install.

(** The keyword arguments of [cm.shelfButton]. *)
Record ShelfButton : Type := mkButton {
  parent : string;
  i : string;
  c : string;
  label : string;
  annotation : string
}.

(** What the installer meets: the path of its own file ([__file__]), the
    value of the MEL global [$gShelfTopLevel], the tab each tab layout has
    selected, and the shelf buttons made so far, oldest first. *)
Record Shelves : Type := mkShelves {
  file : string;
  gShelfTopLevel : string;
  selected_tab : string -> string;
  buttons : list ShelfButton
}.

Definition name : string := "Playblast".
Definition tooltip : string := "Auto playblast selected camera".
Definition imageName : string := "camera_icon.png".

Definition command : string :=
"from CameraAutoPlayblast import CameraPlayblast
import importlib
importlib.reload(CameraPlayblast)
CameraPlayblast.MainWindow().show()
    ".

(** The path of the icon, as the installer computes it. *)
Definition icon_path (sh : Shelves) : string :=
  let directory := Posix.dirname (file sh) in
  let icon_directory := Posix.join directory "icons" in
  Py.replace (Posix.join icon_directory imageName) Posix.sep "/".

(** [onMayaDroppedPythonFile(obj)]. *)
Definition onMayaDroppedPythonFile {A : Type} (obj : A) (sh : Shelves) : Shelves :=
  let currentShelf := selected_tab sh (gShelfTopLevel sh) in
  let path := icon_path sh in
  mkShelves (file sh) (gShelfTopLevel sh) (selected_tab sh)
            (buttons sh ++ [mkButton currentShelf path command name tooltip]).

(** The button a drop makes. *)
Definition button_of (sh : Shelves) : ShelfButton :=
  mkButton (selected_tab sh (gShelfTopLevel sh)) (icon_path sh)
           command name tooltip.

(** [n] files dropped one after the other. *)
Fixpoint drops {A : Type} (objs : list A) (sh : Shelves) : Shelves :=
  match objs with
  | [] => sh
  | obj :: objs' => drops objs' (onMayaDroppedPythonFile obj sh)
  end.

End Install.

(* ===================================================================== *)
(** ** class MainWindow *)
(* ===================================================================== *)

Module Window.

(** What Qt is asked to do with a dialog. *)
Inductive QtCall : Type :=
  | RestoreGeometry (geometry : string)
  | Raise_
  | ActivateWindow.

(** A [MainWindow]: whether Qt has it hidden, its place on the
    screen (what [saveGeometry] returns, never empty), the attribute
    [self.geometry] ([None] at first), and the calls it made, oldest
    first. *)
Record Dialog : Type := mkDialog {
  hidden : bool;
  placement : string;
  geometry : option string;
  qt_calls : list QtCall
}.

(** The class: [dlg_instance], and how many [MainWindow] were built. *)
Record Class : Type := mkClass {
  dlg_instance : option Dialog;
  built : nat
}.

(** [MainWindow()]: a hidden dialog that the window system has put at [place],
    [self.geometry] being [None]. *)
Definition init (place : string) : Dialog := mkDialog true place None [].

(** [showEvent]. *)
Definition showEvent (w : Dialog) : Dialog :=
  match geometry w with
  | Some g =>
      mkDialog (hidden w) g (geometry w) (qt_calls w ++ [RestoreGeometry g])
  | None => w
  end.

(** [closeEvent]. *)
Definition closeEvent (w : Dialog) : Dialog :=
  mkDialog (hidden w) (placement w) (Some (placement w)) (qt_calls w).

(** [show()] on a hidden dialog: Qt shows it, the window system puts it
    at [place], and the show event is delivered.  On a visible dialog
    nothing happens. *)
Definition show (place : string) (w : Dialog) : Dialog :=
  if hidden w
  then showEvent (mkDialog false place (geometry w) (qt_calls w))
  else w.

(** [close()] on a visible dialog: the close event is delivered and Qt
    hides the dialog. *)
Definition close (w : Dialog) : Dialog :=
  if hidden w then w
  else let w' := closeEvent w in
       mkDialog true (placement w') (geometry w') (qt_calls w').

(** The user drags a visible dialog to [place]. *)
Definition move (place : string) (w : Dialog) : Dialog :=
  if hidden w then w
  else mkDialog false place (geometry w) (qt_calls w).

Definition raise_ (w : Dialog) : Dialog :=
  mkDialog (hidden w) (placement w) (geometry w) (qt_calls w ++ [Raise_]).

Definition activateWindow (w : Dialog) : Dialog :=
  mkDialog (hidden w) (placement w) (geometry w)
           (qt_calls w ++ [ActivateWindow]).

(** [MainWindow.display()]; [place] is the place the window system gives
    a dialog that is shown. *)
Definition display (place : string) (cls : Class) : Class :=
  let cls1 :=
    match dlg_instance cls with
    | None => mkClass (Some (init place)) (S (built cls))
    | Some _ => cls
    end in
  match dlg_instance cls1 with
  | Some w =>
      if hidden w
      then mkClass (Some (show place w)) (built cls1)
      else mkClass (Some (activateWindow (raise_ w))) (built cls1)
  | None => cls1
  end.

(** What happens to the class between two looks at it. *)
Inductive Event : Type :=
  | Display (place : string)
  | Close
  | Move (place : string).

Definition on_dialog (f : Dialog -> Dialog) (cls : Class) : Class :=
  mkClass (f <$> dlg_instance cls) (built cls).

Definition step (cls : Class) (e : Event) : Class :=
  match e with
  | Display place => display place cls
  | Close => on_dialog close cls
  | Move place => on_dialog (move place) cls
  end.

Definition run (events : list Event) (cls : Class) : Class :=
  fold_left step events cls.

(** The class as Python loads it. *)
Definition loaded : Class := mkClass None 0.

(** One [MainWindow] was built if there is an instance, none otherwise. *)
Definition one_instance (cls : Class) : Prop :=
  match dlg_instance cls with
  | None => built cls = 0
  | Some _ => built cls = 1
  end.

End Window.

(* ===================================================================== *)
(** ** What a run shows *)
(* ===================================================================== *)

Import Maya Panel.

Definition invalid_root_message : string :=
  "File path doesn't exist. Please provide a valid path.".

Definition no_scene_name_message : string :=
  "Scene name is missing. Please save the file and retry.".

Definition no_selection_message : string :=
  "No camera selected for the playblast. Please select a camera.".

(** The message [perform_playblast] displays when the capture of [camera]
    raises an exception that prints as [detail]. *)
Definition failure_message (camera detail : string) : string :=
  "Failed to create playblast for " +:+ camera +:+ ": " +:+ detail.

(** What the host answers to the capture of [camera] into [playblast_dir]:
    [None] when the movie is written, the message of the exception
    otherwise. *)
Definition capture_error (host : Host) (playblast_dir camera : string)
  : option string :=
  playblast_raises host (Some camera)
    (filename (playblast_args (playblast_path camera playblast_dir))).

(** The calls one source gives rise to: the view switch, the capture and,
    when the capture failed, the report of the failure. *)
Definition capture_calls (host : Host) (playblast_dir camera : string)
  : list HostCall :=
  LookThru camera
  :: Playblast (playblast_args (playblast_path camera playblast_dir))
  :: match capture_error host playblast_dir camera with
     | Some detail => [DisplayError (failure_message camera detail)]
     | None => []
     end.

(** The messages displayed among a list of calls. *)
Definition reports (l : list HostCall) : list string :=
  omap (fun c => match c with DisplayError m => Some m | _ => None end) l.

(** The sources a run of [playblast] works on, its shot name and the
    directory it asks for. *)
Definition selected_sources (s : State) : list string :=
  List.filter (fun n => bool_decide (n ∈ camera_nodes s)) (selection s).

Definition shot_name_of (s : State) : string :=
  Py.item_first (Py.split "." (scene_name s)).

Definition output_path (s : State) : string :=
  Posix.join (Posix.normpath (file_path_le s)) (shot_name_of s).

Definition output_dir (s : State) : string :=
  Posix.abspath (Posix.cwd (disk s)) (output_path s).




(** The report of a failed source, none for a source that succeeded. *)
Definition failure_report (host : Host) (playblast_dir camera : string)
  : option string :=
  failure_message camera <$> capture_error host playblast_dir camera.

(** The namespace-stripped short name [show_connections] tests, and the
    rows it leaves in the list widget for the cameras of a scene. *)
Definition short_name (cam : string) : string :=
  Py.item_last (Py.split ":" cam).

Definition excluded (cam : string) : bool :=
  bool_decide (short_name cam ∈ exclude_list).

Definition rows_of (cameras : list string) : list string :=
  List.map (fun cam => Py.replace cam "Shape" "")
           (List.filter (fun cam => negb (excluded cam)) cameras).

(** The namespace prefix of an identifier: the text up to and including
    its last colon. *)
Definition namespace_prefix (cam : string) : string := Py.upto_last ":" cam.

(** Stripping the shape suffix as the specification words it: only at
    the end of the identifier. *)
Definition strip_shape_suffix (cam : string) : string :=
  if Py.endswith cam "Shape"
  then String.substring 0 (String.length cam - 5) cam
  else cam.

(** The file the capture of [camera] is asked to write, and the files a
    batch over [cameras] leaves on a disk: those of the sources whose
    capture the host did not fail. *)
Definition movie (playblast_dir camera : string) : string :=
  filename (playblast_args (playblast_path camera playblast_dir)).

Definition captured (host : Host) (playblast_dir camera : string) : bool :=
  match capture_error host playblast_dir camera with
  | None => true
  | Some _ => false
  end.

Definition written (host : Host) (fs : Posix.FS) (playblast_dir : string)
  (cameras : list string) : gset (list string) :=
  list_to_set
    (List.map (fun camera => Posix.resolve fs (movie playblast_dir camera))
              (List.filter (captured host playblast_dir) cameras)).

(** Two states with the same widgets and the same scene, the view, the
    disk and the calls apart. *)
Definition same_scene (s s' : State) : Prop :=
  file_path_le s' = file_path_le s
  /\ connection_lwg s' = connection_lwg s
  /\ selected_items s' = selected_items s
  /\ scene_name s' = scene_name s
  /\ camera_nodes s' = camera_nodes s
  /\ selection s' = selection s.

(** The state in which [playblast] gets past its two gates and has its
    directory: the root is a directory, the scene has a name, and
    [os.makedirs] leaves the disk [d]. *)
Definition passes_gates (s : State) (d : Posix.FS) : Prop :=
  Posix.isdir (disk s) (Posix.normpath (file_path_le s)) = true
  /\ is_empty (shot_name_of s) = false
  /\ Posix.makedirs (output_path s) (disk s) = inr d.

(* ===================================================================== *)
(** ** A scene to run on *)
(* ===================================================================== *)

Module Example.

(** A disk with [/tmp/out]; the process works from [/home/artist]. *)
Definition disk0 : Posix.FS :=
  Posix.mkFS "/home/artist"
    {[ ["tmp"]; ["tmp"; "out"]; ["home"]; ["home"; "artist"] ]} ∅.

(** The same disk once [/tmp/out/shotA] is made. *)
Definition disk1 : Posix.FS :=
  Posix.mkFS "/home/artist"
    {[ ["tmp"]; ["tmp"; "out"]; ["home"]; ["home"; "artist"];
       ["tmp"; "out"; "shotA"] ]} ∅.

(** The same disk once [/home/artist/shotA] is made. *)
Definition disk2 : Posix.FS :=
  Posix.mkFS "/home/artist"
    {[ ["tmp"]; ["tmp"; "out"]; ["home"]; ["home"; "artist"];
       ["home"; "artist"; "shotA"] ]} ∅.

(** A host on which every call succeeds, one on which the capture through
    [camY] fails, and one on which the view cannot be switched to [camY]. *)
Definition host_ok : Host := mkHost (fun _ => None) (fun _ _ => None).

Definition host_camY : Host :=
  mkHost (fun _ => None)
         (fun v _ => if bool_decide (v = Some "camY")
                     then Some "capture failed" else None).

Definition host_view : Host :=
  mkHost (fun c => if String.eqb c "camY" then Some "no view" else None)
         (fun _ _ => None).

(** The scene [shotA.mb] with [camX] and [camY] selected, the panel
    pointing at [root]. *)
Definition scene (root : string) : State :=
  mkState root [] [] "shotA.mb"
          ["perspShape"; "camX"; "camY"; "ns:camA"] ["camX"; "camY"]
          None disk0 [].

(** The same scene with [camX] and the referenced [ns:camA] selected. *)
Definition namespaced (root : string) : State :=
  mkState root [] [] "shotA.mb"
          ["perspShape"; "camX"; "camY"; "ns:camA"] ["camX"; "ns:camA"]
          None disk0 [].

(** A scene saved under [name]. *)
Definition saved_as (name : string) : State :=
  mkState "/tmp/out" [] [] name [] [] None disk0 [].

(** A scene with the camera shapes [cameras], some rows still in the
    list and a selection left over. *)
Definition with_cameras (cameras : list string) : State :=
  mkState "/tmp/out" ["old"] ["old"] "shotA.mb" cameras ["old"] None disk0 [].

(** A scene in which the rows [rows] of the list are selected, while
    [camZ] is selected in the scene. *)
Definition with_rows (rows : list string) : State :=
  mkState "/tmp/out" ["camX"; "camY"] rows "shotA.mb"
          ["camX"; "camY"; "camZ"] ["camZ"] None disk0 [].

(** The first disk with a regular file where [/tmp/out/shotA] is to be. *)
Definition disk_file : Posix.FS :=
  Posix.mkFS "/home/artist"
    {[ ["tmp"]; ["tmp"; "out"]; ["home"]; ["home"; "artist"] ]}
    {[ ["tmp"; "out"; "shotA"] ]}.

End Example.

(* ===================================================================== *)
(** ** The operations at work *)
(* ===================================================================== *)

Example split_namespaces : Py.split ":" "a:b:camShape" = ["a"; "b"; "camShape"].
Proof. reflexivity. Qed.

Example split_scene_name :
  Py.item_first (Py.split "." "shotA.v2.mb") = "shotA".
Proof. reflexivity. Qed.

Example replace_leftmost : Py.replace "aaaa" "aa" "b" = "bb".
Proof. reflexivity. Qed.

Example replace_empty_old : Py.replace "ab" "" "-" = "-a-b-".
Proof. reflexivity. Qed.

Example replace_backslashes :
  Py.replace ("C:" +:+ backslash +:+ "out" +:+ backslash +:+ "camA.mov")
             backslash "/"
  = "C:/out/camA.mov".
Proof. reflexivity. Qed.

Example normpath_collapses : Posix.normpath "/tmp//out/../x/./" = "/tmp/x".
Proof. reflexivity. Qed.

Example normpath_two_slashes :
  Posix.normpath "//a" = "//a" /\ Posix.normpath "///a" = "/a".
Proof. split; reflexivity. Qed.

Example normpath_above : Posix.normpath "../a/.." = "..".
Proof. reflexivity. Qed.

Example abspath_relative : Posix.abspath "/home/artist" "./shotA" = "/home/artist/shotA".
Proof. reflexivity. Qed.

(* ===================================================================== *)
(** ** Splitting *)
(* ===================================================================== *)

Section Split.

Variable sep : ascii.

Lemma split_not_nil s : Py.split sep s <> [].
Proof.
  destruct s as [|c s]; cbn; [congruence|].
  destruct (Ascii.eqb c sep); [congruence|].
  destruct (Py.split sep s); congruence.
Qed.

Lemma split_cons_sep s : Py.split sep (String sep s) = "" :: Py.split sep s.
Proof. cbn. by rewrite Ascii.eqb_refl. Qed.

Lemma split_cons_other c s :
  Ascii.eqb c sep = false ->
  exists h t, Py.split sep s = h :: t
              /\ Py.split sep (String c s) = String c h :: t.
Proof.
  intros Hc. cbn. rewrite Hc.
  destruct (Py.split sep s) as [|h t] eqn:E.
  - by destruct (split_not_nil s).
  - by exists h, t.
Qed.

(** The first item is the text before the first separator. *)
Lemma item_first_split s :
  exists rest,
    s = Py.item_first (Py.split sep s) +:+ rest
    /\ (rest = "" \/ exists r, rest = String sep r)
    /\ Py.has_char sep (Py.item_first (Py.split sep s)) = false.
Proof.
  induction s as [|c s (rest & Hs & Hrest & Hno)].
  - exists "". cbn. auto.
  - destruct (Ascii.eqb c sep) eqn:Hc.
    + apply Ascii.eqb_eq in Hc as ->. rewrite split_cons_sep. cbn.
      exists (String sep s). eauto.
    + destruct (split_cons_other c s Hc) as (h & t & E & ->).
      rewrite E in Hs, Hno. cbn in Hs, Hno |- *.
      exists rest. rewrite Hc, Hno.
      split; [change (String c s = String c (h +:+ rest)); by f_equal | auto].
Qed.

Lemma item_first_empty s :
  is_empty (Py.item_first (Py.split sep s)) = true
  <-> s = "" \/ Py.startswith s (String sep "") = true.
Proof.
  destruct s as [|c s].
  - cbn. tauto.
  - destruct (Ascii.eqb c sep) eqn:Hc.
    + rewrite (proj1 (Ascii.eqb_eq _ _) Hc), split_cons_sep. cbn.
      rewrite Ascii.eqb_refl. tauto.
    + destruct (split_cons_other c s Hc) as (h & t & _ & ->). cbn.
      rewrite Ascii.eqb_sym, Hc. split; [discriminate | intros [|]; discriminate].
Qed.

Lemma has_char_app a b :
  Py.has_char sep (a +:+ b) = Py.has_char sep a || Py.has_char sep b.
Proof.
  induction a as [|c a IH]; [reflexivity|]. cbn. by rewrite IH, orb_assoc.
Qed.

Lemma split_single s :
  Py.has_char sep s = false -> Py.split sep s = [s].
Proof.
  induction s as [|c s IH]; [reflexivity|]. cbn.
  destruct (Ascii.eqb c sep); [discriminate|]. cbn.
  intros H. by rewrite (IH H).
Qed.

Lemma split_many s :
  Py.has_char sep s = true -> exists h x t, Py.split sep s = h :: x :: t.
Proof.
  induction s as [|c s IH]; [discriminate|]. cbn.
  destruct (Ascii.eqb c sep); cbn.
  - intros _. destruct (Py.split sep s) as [|x t] eqn:E.
    + by destruct (split_not_nil s).
    + by exists "", x, t.
  - intros H. destruct (IH H) as (h & x & t & ->). by exists (String c h), x, t.
Qed.

Lemma upto_last_none s :
  Py.has_char sep s = false -> Py.upto_last sep s = "".
Proof. destruct s; [reflexivity|]. cbn [Py.upto_last]. by intros ->. Qed.

(** The last item is the text after the last separator. *)
Lemma item_last_split s :
  s = Py.upto_last sep s +:+ Py.item_last (Py.split sep s)
  /\ Py.has_char sep (Py.item_last (Py.split sep s)) = false.
Proof.
  induction s as [|c s [Hs Hno]]; [by cbn|].
  destruct (Ascii.eqb c sep) eqn:Hc.
  - apply Ascii.eqb_eq in Hc as ->. rewrite split_cons_sep.
    cbn [Py.upto_last Py.has_char]. rewrite Ascii.eqb_refl. cbn [orb].
    unfold Py.item_last in *.
    destruct (Py.split sep s) as [|x t] eqn:E; [by destruct (split_not_nil s)|].
    change (List.last ("" :: x :: t) "") with (List.last (x :: t) "").
    split; [cbn; by f_equal | exact Hno].
  - cbn [Py.upto_last Py.has_char]. rewrite Hc. cbn [orb].
    destruct (Py.has_char sep s) eqn:Hs'.
    + destruct (split_many s Hs') as (h & x & t & E).
      cbn [Py.split]. rewrite Hc, E. rewrite E in Hs, Hno.
      unfold Py.item_last in *.
      change (List.last (String c h :: x :: t) "") with (List.last (x :: t) "").
      change (List.last (h :: x :: t) "") with (List.last (x :: t) "") in Hs, Hno.
      split; [cbn; by f_equal | exact Hno].
    + cbn [Py.split]. rewrite Hc, (split_single s Hs'). cbn. by rewrite Hc, Hs'.
Qed.

Lemma has_char_upto_last s :
  Py.has_char sep (Py.upto_last sep s) = Py.has_char sep s.
Proof.
  induction s as [|c s IH]; [reflexivity|].
  cbn [Py.upto_last].
  destruct (Py.has_char sep (String c s)) eqn:H; [|reflexivity].
  cbn [Py.has_char] in H |- *. by rewrite IH.
Qed.

Lemma upto_last_fixed s :
  Py.upto_last sep (Py.upto_last sep s) = Py.upto_last sep s.
Proof.
  induction s as [|c s IH]; [reflexivity|].
  cbn [Py.upto_last].
  destruct (Py.has_char sep (String c s)) eqn:H; [|reflexivity].
  cbn [Py.upto_last].
  change (Py.has_char sep (String c (Py.upto_last sep s)))
    with (Ascii.eqb c sep || Py.has_char sep (Py.upto_last sep s)).
  rewrite has_char_upto_last.
  change (Ascii.eqb c sep || Py.has_char sep s)
    with (Py.has_char sep (String c s)).
  by rewrite H, IH.
Qed.

(** A prefix that ends on the separator stays the prefix when text
    without separator follows. *)
Lemma upto_last_app p y :
  Py.upto_last sep p = p -> Py.has_char sep y = false ->
  Py.upto_last sep (p +:+ y) = p.
Proof.
  intros Hp Hy. induction p as [|c p IH].
  - by apply upto_last_none.
  - cbn [Py.upto_last] in Hp.
    destruct (Py.has_char sep (String c p)) eqn:H; [|discriminate].
    injection Hp as Hp.
    change (String c p +:+ y) with (String c (p +:+ y)).
    cbn [Py.upto_last].
    change (String c (p +:+ y)) with (String c p +:+ y) at 1.
    by rewrite has_char_app, H, (IH Hp).
Qed.

End Split.

(* ===================================================================== *)
(** ** Replacing *)
(* ===================================================================== *)

Lemma str_app_empty s : s +:+ "" = s.
Proof. induction s as [|c s IH]; [reflexivity|]. cbn. by rewrite IH. Qed.

Lemma str_app_assoc a b c : (a +:+ b) +:+ c = a +:+ (b +:+ c).
Proof. induction a as [|x a IH]; [reflexivity|]. cbn. by rewrite IH. Qed.

(** Where no occurrence starts, the scan copies. *)
Lemma replace_scan_clean old new pre rest :
  Py.no_match_within old pre rest = true ->
  Py.replace_scan old new 0 (pre +:+ rest)
  = pre +:+ Py.replace_scan old new 0 rest.
Proof.
  induction pre as [|c pre IH]; [reflexivity|].
  cbn [Py.no_match_within]. intros [Hhere Hlater]%andb_prop.
  apply negb_true_iff in Hhere.
  change (String c pre +:+ rest) with (String c (pre +:+ rest)) in *.
  cbn [Py.replace_scan]. rewrite Hhere, (IH Hlater). reflexivity.
Qed.

(** A scan that deletes adds no character. *)
Lemma has_char_replace_scan c old s : forall skip,
  Py.has_char c (Py.replace_scan old "" skip s) = true -> Py.has_char c s = true.
Proof.
  induction s as [|a s IH]; intros skip; [done|].
  cbn [Py.replace_scan Py.has_char].
  destruct skip as [|k].
  - destruct (Py.startswith (String a s) old).
    + cbn. intros H%IH. rewrite H. apply orb_true_r.
    + cbn [Py.has_char]. destruct (Ascii.eqb a c); [done|]. cbn. apply IH.
  - intros H%IH. rewrite H. apply orb_true_r.
Qed.

Lemma no_match_single c pre rest :
  Py.has_char c pre = false ->
  Py.no_match_within (String c "") pre rest = true.
Proof.
  induction pre as [|a pre IH]; [done|]. cbn.
  rewrite (Ascii.eqb_sym a c).
  destruct (Ascii.eqb c a); [done|]. cbn. exact IH.
Qed.

Lemma replace_char_absent c new s :
  Py.has_char c s = false -> Py.replace s (String c "") new = s.
Proof.
  intros H. unfold Py.replace.
  rewrite <- (str_app_empty s) at 1.
  rewrite replace_scan_clean by (by apply no_match_single).
  cbn. apply str_app_empty.
Qed.

(** A match at the head of [t +:+ rest] lies in [t], or [t] is a prefix
    of what is matched. *)
Lemma startswith_app old : forall t rest,
  Py.startswith (t +:+ rest) old = true ->
  Py.startswith t old = true \/ Py.startswith old t = true.
Proof.
  induction old as [|a old IH]; intros t rest; [by left|].
  destruct t as [|b t]; [by right|].
  cbn. destruct (Ascii.eqb a b) eqn:E; [|done].
  rewrite Ascii.eqb_sym, E. apply IH.
Qed.

Lemma startswith_has_char c t : forall s,
  Py.startswith s t = true -> Py.has_char c t = true -> Py.has_char c s = true.
Proof.
  induction t as [|a t IH]; intros s; [done|].
  destruct s as [|b s]; [done|]. cbn.
  destruct (Ascii.eqb a b) eqn:E; [|done].
  apply Ascii.eqb_eq in E as ->.
  destruct (Ascii.eqb b c); [done|]. cbn. apply IH.
Qed.

(** A prefix that ends on [sep] and does not contain [old] hides no start
    of an occurrence of [old], when [old] has no [sep]. *)
Lemma no_match_in_prefix sep old pre rest :
  Py.upto_last sep pre = pre ->
  Py.has_char sep old = false ->
  Py.contains pre old = false ->
  Py.no_match_within old pre rest = true.
Proof.
  intros Hpre Hold. induction pre as [|c pre IH]; [done|].
  cbn [Py.upto_last] in Hpre.
  destruct (Py.has_char sep (String c pre)) eqn:Hsep; [|discriminate].
  injection Hpre as Hpre.
  cbn [Py.contains Py.no_match_within].
  intros [Hhere Hlater]%orb_false_elim.
  rewrite (IH Hpre Hlater), andb_true_r. apply negb_true_iff.
  destruct (Py.startswith (String c pre +:+ rest) old) eqn:Hm; [|done].
  destruct (startswith_app old _ _ Hm) as [H|H]; [congruence|].
  pose proof (startswith_has_char sep _ _ H Hsep). congruence.
Qed.

Lemma startswith_shape c a b :
  Py.startswith (String c (a +:+ "Shape" +:+ b)) "Shape"
  = Py.startswith (String c (a +:+ "Shap")) "Shape".
Proof.
  destruct a as [|c1 [|c2 [|c3 [|c4 a]]]]; cbn;
    repeat (case_match; try done).
Qed.

(** When [a +:+ "Shap"] holds no ["Shape"], the first ["Shape"] of
    [a +:+ "Shape" +:+ b] is the one written. *)
Lemma no_match_before_shape a b :
  Py.contains (a +:+ "Shap") "Shape" = false ->
  Py.no_match_within "Shape" a ("Shape" +:+ b) = true.
Proof.
  induction a as [|c a IH]; [done|].
  change (String c a +:+ "Shap") with (String c (a +:+ "Shap")).
  cbn [Py.contains Py.no_match_within].
  intros [Hhere Hlater]%orb_false_elim.
  change (String c a +:+ "Shape" +:+ b) with (String c (a +:+ "Shape" +:+ b)).
  by rewrite startswith_shape, Hhere, (IH Hlater).
Qed.

Lemma no_match_absent old s :
  Py.contains s old = false -> Py.no_match_within old s "" = true.
Proof.
  induction s as [|c s IH]; [done|].
  cbn [Py.contains Py.no_match_within]. rewrite str_app_empty.
  intros [-> Hlater]%orb_false_elim. by rewrite (IH Hlater).
Qed.

(** The scan leaves a string without occurrence as it is. *)
Lemma replace_absent s old new :
  old <> "" -> Py.contains s old = false -> Py.replace s old new = s.
Proof.
  intros Hold H. unfold Py.replace. destruct old as [|c old]; [done|].
  rewrite <- (str_app_empty s) at 1.
  rewrite replace_scan_clean by (by apply no_match_absent).
  cbn. apply str_app_empty.
Qed.

(** The scan removes the first ["Shape"] and goes on behind it. *)
Lemma replace_first_shape a b :
  Py.contains (a +:+ "Shap") "Shape" = false ->
  Py.replace (a +:+ "Shape" +:+ b) "Shape" ""
  = a +:+ Py.replace b "Shape" "".
Proof.
  intros H. unfold Py.replace.
  by rewrite replace_scan_clean by (by apply no_match_before_shape).
Qed.

(* ===================================================================== *)
(** ** Paths *)
(* ===================================================================== *)

Lemma endswith_app s p : Py.endswith s p = true -> exists q, s = q +:+ p.
Proof.
  induction s as [|c s IH]; cbn [Py.endswith].
  - rewrite orb_false_r. intros H%String.eqb_eq. by exists "".
  - intros [H%String.eqb_eq | H]%orb_prop.
    + by exists "".
    + destruct (IH H) as [q ->]. by exists (String c q).
Qed.

Lemma split_app_sep sep a b :
  Py.split sep (a +:+ String sep b) = Py.split sep a ++ Py.split sep b.
Proof.
  induction a as [|c a IH].
  - cbn. by rewrite Ascii.eqb_refl.
  - cbn [String.append Py.split]. rewrite IH.
    destruct (Ascii.eqb c sep); [reflexivity|].
    destruct (Py.split sep a) as [|h t] eqn:E; [by destruct (split_not_nil sep a)|].
    reflexivity.
Qed.

Lemma split_pieces sep s :
  Forall (fun c => Py.has_char sep c = false) (Py.split sep s).
Proof.
  induction s as [|c s IH]; cbn; [by repeat constructor|].
  destruct (Ascii.eqb c sep) eqn:Hc; [by constructor|].
  destruct (Py.split sep s) as [|h t]; [by repeat constructor; cbn; rewrite Hc|].
  apply Forall_cons in IH as [Hh Ht].
  constructor; [cbn; by rewrite Hc, Hh | exact Ht].
Qed.

Lemma join_split_simple l :
  Forall Posix.simple l ->
  List.filter Posix.nonempty (Py.split "/" (Py.join "/" l)) = l.
Proof.
  induction l as [|x l IH]; [reflexivity|].
  intros [[Hx Hno] Hl]%Forall_cons.
  destruct l as [|y l].
  - cbn [Py.join]. rewrite (split_single _ _ Hno). cbn. by rewrite Hx.
  - change (Py.join "/" (x :: y :: l))
      with (x +:+ String "/" (Py.join "/" (y :: l))).
    rewrite split_app_sep, (split_single _ _ Hno).
    cbn [app List.filter]. by rewrite Hx, (IH Hl).
Qed.

Lemma slashes_split n x :
  List.filter Posix.nonempty (Py.split "/" (Posix.slashes_string n +:+ x))
  = List.filter Posix.nonempty (Py.split "/" x).
Proof.
  induction n as [|n IH]; [reflexivity|].
  cbn [Posix.slashes_string String.append].
  by rewrite split_cons_sep.
Qed.

Lemma Forall_removelast {A} (P : A -> Prop) l :
  Forall P l -> Forall P (List.removelast l).
Proof.
  induction l as [|x l IH]; [done|].
  intros [Hx Hl]%Forall_cons. destruct l as [|y l]; [constructor|].
  change (Forall P (x :: List.removelast (y :: l))). constructor; auto.
Qed.

Lemma norm_step_simple n st comp :
  Py.has_char "/" comp = false ->
  Forall Posix.simple st -> Forall Posix.simple (Posix.norm_step n st comp).
Proof.
  intros Hno Hst. unfold Posix.norm_step.
  destruct (String.eqb comp "") eqn:He; [exact Hst|]. cbn [orb].
  destruct (String.eqb comp "."); [exact Hst|].
  case_match.
  - apply Forall_app. split; [exact Hst|].
    constructor; [|constructor]. split; [|exact Hno].
    unfold Posix.nonempty. by rewrite He.
  - by apply Forall_removelast.
Qed.

Lemma norm_fold_simple n comps : forall st,
  Forall (fun c => Py.has_char "/" c = false) comps ->
  Forall Posix.simple st ->
  Forall Posix.simple (fold_left (Posix.norm_step n) comps st).
Proof.
  induction comps as [|c comps IH]; intros st Hc Hst; [exact Hst|].
  apply Forall_cons in Hc as [Hc Hcs]. cbn.
  apply IH; [exact Hcs|]. by apply norm_step_simple.
Qed.

(** Above the root it only matters that there are leading slashes, not
    how many. *)
Lemma norm_step_slashes n st comp :
  n <> 0 -> Posix.norm_step n st comp = Posix.norm_step 1 st comp.
Proof. intros Hn. unfold Posix.norm_step. by destruct n. Qed.

Lemma norm_fold_slashes n comps : forall st,
  n <> 0 ->
  fold_left (Posix.norm_step n) comps st
  = fold_left (Posix.norm_step 1) comps st.
Proof.
  induction comps as [|c comps IH]; intros st Hn; [reflexivity|].
  cbn. by rewrite norm_step_slashes, IH.
Qed.

Lemma initial_slashes_abs path :
  Posix.isabs path = true -> Posix.initial_slashes path <> 0.
Proof.
  unfold Posix.isabs, Posix.initial_slashes. intros ->. by case_match.
Qed.

Lemma normpath_components path :
  Posix.isabs path = true ->
  List.filter Posix.nonempty (Py.split "/" (Posix.normpath path))
  = Posix.components path.
Proof.
  intros Habs. pose proof (initial_slashes_abs path Habs) as Hn.
  unfold Posix.normpath.
  destruct (String.eqb path "") eqn:He.
  { apply String.eqb_eq in He as ->. discriminate. }
  rewrite (norm_fold_slashes _ _ [] Hn). fold (Posix.components path).
  assert (Hs : Forall Posix.simple (Posix.components path)).
  { apply norm_fold_simple; [apply split_pieces | constructor]. }
  case_match.
  - destruct (Posix.initial_slashes path); [done | discriminate].
  - by rewrite slashes_split, join_split_simple.
Qed.

Lemma components_app_sep x b :
  Posix.components (x +:+ String "/" b)
  = fold_left (Posix.norm_step 1) (Py.split "/" b) (Posix.components x).
Proof. unfold Posix.components. by rewrite split_app_sep, fold_left_app. Qed.

Lemma startswith_app_l c x y :
  Py.startswith x (String c "") = true ->
  Py.startswith (x +:+ y) (String c "") = true.
Proof. by destruct x. Qed.

(** Joining a relative path to an absolute working directory: the result
    is absolute, and it is the directory, a slash, and the path. *)
Lemma join_cwd cwd b :
  Posix.isabs cwd = true ->
  Py.startswith b "/" = false ->
  exists x,
    Posix.join cwd b = x +:+ String "/" b
    /\ Posix.components x = Posix.components cwd
    /\ Posix.isabs (x +:+ String "/" b) = true.
Proof.
  intros Habs Hb. unfold Posix.join. rewrite Hb.
  destruct (String.eqb cwd "") eqn:He.
  { apply String.eqb_eq in He as ->. discriminate. }
  cbn [orb]. destruct (Py.endswith cwd "/") eqn:Hend.
  - destruct (endswith_app _ _ Hend) as [q ->]. exists q.
    split; [by rewrite str_app_assoc|]. split.
    + change (q +:+ "/") with (q +:+ String "/" "").
      by rewrite components_app_sep.
    + unfold Posix.isabs in *. destruct q; [done|]. exact Habs.
  - exists cwd. split; [done|]. split; [done|].
    by apply startswith_app_l.
Qed.

Lemma no_slash_relative b :
  Py.has_char "/" b = false -> Py.startswith b "/" = false.
Proof.
  destruct b as [|c b]; [done|]. cbn [Py.has_char Py.startswith].
  rewrite (Ascii.eqb_sym "/" c). by destruct (Ascii.eqb c "/").
Qed.

(** What a relative path names: the components of the working directory,
    then the path's own. *)
Lemma resolve_relative fs b :
  Posix.isabs (Posix.cwd fs) = true ->
  Py.startswith b "/" = false ->
  Posix.resolve fs b
  = fold_left (Posix.norm_step 1) (Py.split "/" b)
              (Posix.components (Posix.cwd fs)).
Proof.
  intros Habs Hb. unfold Posix.resolve, Posix.abspath.
  unfold Posix.isabs at 1. rewrite Hb.
  destruct (join_cwd _ _ Habs Hb) as (x & -> & <- & Hx).
  by rewrite (normpath_components _ Hx), components_app_sep.
Qed.

Lemma resolve_cwd fs :
  Posix.isabs (Posix.cwd fs) = true ->
  Posix.resolve fs (Posix.cwd fs) = Posix.components (Posix.cwd fs).
Proof.
  intros Habs. unfold Posix.resolve, Posix.abspath. rewrite Habs.
  by apply normpath_components.
Qed.

(** ["."] is the working directory. *)
Lemma resolve_dot fs :
  Posix.isabs (Posix.cwd fs) = true ->
  Posix.resolve fs "." = Posix.resolve fs (Posix.cwd fs).
Proof.
  intros Habs. rewrite (resolve_relative fs "." Habs), resolve_cwd; done.
Qed.

Lemma isdir_dot fs :
  Posix.isabs (Posix.cwd fs) = true ->
  Posix.isdir fs "." = Posix.isdir fs (Posix.cwd fs).
Proof. intros Habs. unfold Posix.isdir. by rewrite resolve_dot. Qed.

Lemma join_dot name :
  Py.has_char "/" name = false -> Posix.join "." name = "./" +:+ name.
Proof.
  intros H. unfold Posix.join. by rewrite (no_slash_relative _ H).
Qed.

Lemma norm_step_dot n st : Posix.norm_step n st "." = st.
Proof. reflexivity. Qed.

Lemma no_dot_name name :
  Py.has_char "." name = false ->
  String.eqb name "." = false /\ String.eqb name ".." = false.
Proof.
  intros H. split; apply String.eqb_neq; intros ->; discriminate.
Qed.

Lemma norm_step_push n st name :
  Posix.nonempty name = true ->
  Py.has_char "." name = false ->
  Posix.norm_step n st name = st ++ [name].
Proof.
  intros Hne Hdot. unfold Posix.norm_step.
  destruct (no_dot_name _ Hdot) as [-> ->].
  unfold Posix.nonempty in Hne. apply negb_true_iff in Hne. by rewrite Hne.
Qed.

(** A child of ["."] is a child of the working directory. *)
Lemma resolve_child fs name :
  Posix.isabs (Posix.cwd fs) = true ->
  Posix.nonempty name = true ->
  Py.has_char "/" name = false ->
  Py.has_char "." name = false ->
  Posix.resolve fs (Posix.join "." name)
  = Posix.resolve fs (Posix.cwd fs) ++ [name].
Proof.
  intros Habs Hne Hslash Hdot.
  rewrite (join_dot _ Hslash), resolve_cwd by done.
  rewrite (resolve_relative fs _ Habs) by done.
  change ("./" +:+ name) with ("." +:+ String "/" name).
  rewrite split_app_sep, (split_single _ _ Hslash).
  change (Py.split "/" ".") with ["."]. cbn [app fold_left].
  by rewrite norm_step_dot, norm_step_push.
Qed.

(* ===================================================================== *)
(** ** Making directories *)
(* ===================================================================== *)

Lemma resolve_same_cwd fs fs' path :
  Posix.cwd fs' = Posix.cwd fs -> Posix.resolve fs' path = Posix.resolve fs path.
Proof. unfold Posix.resolve. by intros ->. Qed.

Lemma makedirs_disk path fs d :
  Posix.makedirs path fs = inr d ->
  Posix.cwd d = Posix.cwd fs
  /\ Posix.files d = Posix.files fs
  /\ Posix.dirs d
     = Posix.dirs fs ∪ list_to_set (Posix.ancestors (Posix.resolve fs path))
  /\ existsb (fun c => bool_decide (c ∈ Posix.files fs))
             (Posix.ancestors (Posix.resolve fs path)) = false.
Proof.
  unfold Posix.makedirs. case_match eqn:E; [discriminate|].
  intros [= <-]. done.
Qed.


Lemma ancestors_self (cs : list string) : cs <> [] -> cs ∈ Posix.ancestors cs.
Proof.
  intros Hne. unfold Posix.ancestors.
  apply list_elem_of_In, in_map_iff. exists (length cs).
  split; [apply firstn_all|]. apply in_seq.
  destruct cs; [done|]. cbn. lia.
Qed.

(** The directory asked for exists afterwards. *)
Lemma makedirs_isdir path fs d :
  Posix.makedirs path fs = inr d ->
  Posix.resolve fs path <> [] ->
  Posix.isdir d path = true.
Proof.
  intros H Hne. destruct (makedirs_disk _ _ _ H) as (Hcwd & _ & Hdirs & _).
  unfold Posix.isdir. apply bool_decide_eq_true.
  rewrite (resolve_same_cwd fs d path Hcwd), Hdirs.
  apply elem_of_union_r, elem_of_list_to_set. by apply ancestors_self.
Qed.

(* ===================================================================== *)
(** ** Running the monad *)
(* ===================================================================== *)

Lemma run_bind {A B} (m : M A) (k : A -> M B) (s : State) :
  (m ≫= k) s = match m s with
               | (Returns a, s') => k a s'
               | (Raises e, s') => (Raises e, s')
               end.
Proof. reflexivity. Qed.

Lemma run_bind_returns {A B} (m : M A) (k : A -> M B) s a s' :
  m s = (Returns a, s') -> (m ≫= k) s = k a s'.
Proof. intros H. rewrite run_bind, H. reflexivity. Qed.

Lemma run_mret {A} (a : A) (s : State) : (mret a : M A) s = (Returns a, s).
Proof. reflexivity. Qed.

Lemma for_each_cons {A} (x : A) l (body : A -> M unit) s :
  for_each (x :: l) body s = (body x ≫= fun _ => for_each l body) s.
Proof. reflexivity. Qed.

(* ===================================================================== *)
(** ** The two gates of [playblast] *)
(* ===================================================================== *)

Lemma normpath_not_empty path : is_empty (Posix.normpath path) = false.
Proof.
  unfold Posix.normpath, is_empty.
  destruct (String.eqb path "") eqn:E; [reflexivity|].
  match goal with |- context [String.eqb ?p ""] =>
    destruct (String.eqb p "") eqn:E'; [reflexivity | exact E'] end.
Qed.

Lemma validate_returns s :
  Posix.isdir (disk s) (Posix.normpath (file_path_le s)) = true ->
  validate_and_get_filepath s = (Returns (Posix.normpath (file_path_le s)), s).
Proof.
  intros H. unfold validate_and_get_filepath.
  cbv [mbind M_bind bind gets os_path_isdir]. rewrite H. reflexivity.
Qed.

Lemma validate_rejects s :
  Posix.isdir (disk s) (Posix.normpath (file_path_le s)) = false ->
  validate_and_get_filepath s
  = (Returns "", log (DisplayError invalid_root_message) s).
Proof.
  intros H. unfold validate_and_get_filepath.
  cbv [mbind M_bind bind gets os_path_isdir]. rewrite H. reflexivity.
Qed.

Lemma shot_name_returns s :
  is_empty (shot_name_of s) = false ->
  get_scene_shot_name s = (Returns (shot_name_of s), s).
Proof.
  intros H. unfold get_scene_shot_name.
  cbv [mbind M_bind bind gets file_sceneName_shortName].
  fold (shot_name_of s). rewrite H. reflexivity.
Qed.

Lemma shot_name_rejects s :
  is_empty (shot_name_of s) = true ->
  get_scene_shot_name s
  = (Returns "", log (DisplayError no_scene_name_message) s).
Proof.
  intros H. unfold get_scene_shot_name.
  cbv [mbind M_bind bind gets file_sceneName_shortName].
  fold (shot_name_of s). rewrite H. reflexivity.
Qed.

Lemma ensure_directory_run path s :
  ensure_directory path s
  = match Posix.makedirs path (disk s) with
    | inl e => (Raises e, s)
    | inr d => (Returns (Posix.abspath (Posix.cwd d) path), set_disk d s)
    end.
Proof.
  unfold ensure_directory.
  cbv [mbind M_bind bind os_makedirs os_path_abspath gets].
  destruct (Posix.makedirs path (disk s)); reflexivity.
Qed.

Lemma makedirs_cwd path fs d :
  Posix.makedirs path fs = inr d -> Posix.cwd d = Posix.cwd fs.
Proof.
  unfold Posix.makedirs. case_match; [discriminate|].
  intros [= <-]. reflexivity.
Qed.

(* ===================================================================== *)
(** ** One source, then the batch *)
(* ===================================================================== *)

Section Batch.

Variable host : Host.

Lemma perform_playblast_run camera dir s :
  lookThru_raises host camera = None ->
  exists s',
    perform_playblast host camera dir s = (Returns tt, s')
    /\ view s' = Some camera
    /\ calls s' = calls s ++ capture_calls host dir camera
    /\ Posix.dirs (disk s') = Posix.dirs (disk s).
Proof.
  intros Hview.
  unfold perform_playblast, lookThru, execute_playblast, Maya.playblast.
  rewrite Hview.
  cbv [mbind M_bind bind modify gets try_except raise display_error displayError].
  cbn [view set_view log].
  unfold capture_calls, capture_error.
  destruct (playblast_raises host (Some camera) _) as [detail|];
    eexists; (split; [reflexivity|]); (split; [reflexivity|]);
    (split; [|reflexivity]);
    cbn [calls log set_view set_disk str_exc];
    rewrite <- ?app_assoc; reflexivity.
Qed.

Lemma perform_playblast_aborts camera dir s msg :
  lookThru_raises host camera = Some msg ->
  perform_playblast host camera dir s
  = (Raises (RuntimeError msg), log (LookThru camera) s).
Proof.
  intros Hview. unfold perform_playblast, lookThru. rewrite Hview. reflexivity.
Qed.

Lemma run_bind_raises_perform camera dir s msg {B} (k : unit -> M B) :
  lookThru_raises host camera = Some msg ->
  (perform_playblast host camera dir ≫= k) s
  = (Raises (RuntimeError msg), log (LookThru camera) s).
Proof.
  intros H. by rewrite run_bind, (perform_playblast_aborts _ _ _ _ H).
Qed.

Lemma for_each_perform dir cameras : forall s,
  (forall camera, camera ∈ cameras -> lookThru_raises host camera = None) ->
  exists s',
    for_each cameras (fun camera => perform_playblast host camera dir) s
    = (Returns tt, s')
    /\ calls s' = calls s ++ flat_map (capture_calls host dir) cameras
    /\ Posix.dirs (disk s') = Posix.dirs (disk s).
Proof.
  induction cameras as [|camera cameras IH]; intros s Hview.
  - exists s. split; [reflexivity|]. cbn. by rewrite app_nil_r.
  - destruct (perform_playblast_run camera dir s) as (s1 & Hrun & _ & Hcalls & Hd).
    { apply Hview. left. }
    destruct (IH s1) as (s2 & Hrest & Hcalls2 & Hd2).
    { intros c Hc. apply Hview. by right. }
    exists s2. split; [|split].
    + rewrite for_each_cons. by rewrite (run_bind_returns _ _ _ _ _ Hrun).
    + rewrite Hcalls2, Hcalls. cbn [flat_map]. by rewrite <- app_assoc.
    + by rewrite Hd2.
Qed.

End Batch.

Section Run.

Variable host : Host.

Lemma get_selected_cameras_some s :
  selected_sources s <> [] ->
  get_selected_cameras s = (Returns (selected_sources s), s).
Proof.
  intros Hne. unfold get_selected_cameras.
  cbv [mbind M_bind bind ls_selection_cameras gets].
  fold (selected_sources s).
  destruct (selected_sources s); [congruence | reflexivity].
Qed.

Lemma get_selected_cameras_none s :
  selected_sources s = [] ->
  get_selected_cameras s
  = (Returns [], log (DisplayError no_selection_message) s).
Proof.
  intros He. unfold get_selected_cameras.
  cbv [mbind M_bind bind ls_selection_cameras gets].
  fold (selected_sources s). rewrite He. reflexivity.
Qed.

(** [playblast] up to its loop. *)
Lemma playblast_to_loop s d :
  passes_gates s d ->
  selected_sources s <> [] ->
  playblast host s
  = for_each (selected_sources s)
      (fun camera => perform_playblast host camera (output_dir s))
      (set_disk d s).
Proof.
  intros (Hroot & Hshot & Hmk) Hsel. unfold playblast.
  rewrite (run_bind_returns _ _ _ _ _ (validate_returns s Hroot)).
  rewrite normpath_not_empty.
  rewrite (run_bind_returns _ _ _ _ _ (shot_name_returns s Hshot)).
  rewrite Hshot.
  assert (Hdir : ensure_directory (output_path s) s
                 = (Returns (output_dir s), set_disk d s)).
  { rewrite ensure_directory_run, Hmk. unfold output_dir.
    by rewrite (makedirs_cwd _ _ _ Hmk). }
  fold (output_path s).
  rewrite (run_bind_returns _ _ _ _ _ Hdir).
  assert (Hcams : get_selected_cameras (set_disk d s)
                  = (Returns (selected_sources s), set_disk d s)).
  { apply (get_selected_cameras_some (set_disk d s)). exact Hsel. }
  rewrite (run_bind_returns _ _ _ _ _ Hcams).
  destruct (selected_sources s); [congruence | reflexivity].
Qed.

(** With nothing selected [playblast] stops after the directory is made. *)
Lemma playblast_no_selection s d :
  passes_gates s d ->
  selected_sources s = [] ->
  playblast host s
  = (Returns tt, log (DisplayError no_selection_message) (set_disk d s)).
Proof.
  intros (Hroot & Hshot & Hmk) Hsel. unfold playblast.
  rewrite (run_bind_returns _ _ _ _ _ (validate_returns s Hroot)).
  rewrite normpath_not_empty.
  rewrite (run_bind_returns _ _ _ _ _ (shot_name_returns s Hshot)).
  rewrite Hshot. fold (output_path s).
  rewrite run_bind, ensure_directory_run, Hmk.
  by rewrite (run_bind_returns _ _ _ _ _
                (get_selected_cameras_none (set_disk d s) Hsel)).
Qed.

(** The calls of a whole batch. *)
Lemma playblast_batch s d :
  passes_gates s d ->
  selected_sources s <> [] ->
  (forall camera, camera ∈ selected_sources s ->
                  lookThru_raises host camera = None) ->
  exists s',
    playblast host s = (Returns tt, s')
    /\ calls s'
       = calls s ++ flat_map (capture_calls host (output_dir s))
                             (selected_sources s)
    /\ Posix.dirs (disk s') = Posix.dirs d.
Proof.
  intros Hg Hsel Hview.
  rewrite (playblast_to_loop s d Hg Hsel).
  destruct (for_each_perform host (output_dir s) (selected_sources s)
              (set_disk d s) Hview) as (s' & Hrun & Hcalls & Hd).
  exists s'. split; [exact Hrun|]. split; [exact Hcalls | exact Hd].
Qed.

End Run.



Lemma reports_app l1 l2 : reports (l1 ++ l2) = reports l1 ++ reports l2.
Proof. unfold reports. apply omap_app. Qed.

Lemma reports_capture_calls host dir camera :
  reports (capture_calls host dir camera)
  = option_list (failure_report host dir camera).
Proof.
  unfold capture_calls, failure_report.
  destruct (capture_error host dir camera); reflexivity.
Qed.

Lemma reports_batch host dir cameras :
  reports (flat_map (capture_calls host dir) cameras)
  = omap (failure_report host dir) cameras.
Proof.
  induction cameras as [|camera cameras IH]; [reflexivity|].
  cbn [flat_map]. rewrite reports_app, reports_capture_calls, IH.
  cbn [omap list_omap]. by destruct (failure_report host dir camera).
Qed.

(* ===================================================================== *)
(** ** The list of cameras *)
(* ===================================================================== *)

Lemma show_connections_loop cameras : forall s,
  for_each cameras (fun cam =>
    let cam_name := Py.item_last (Py.split ":" cam) in
    if negb (bool_decide (cam_name ∈ exclude_list)) then
      let transform_node := Py.replace cam "Shape" "" in
      lwg_addItem transform_node
    else mret tt) s
  = (Returns tt,
     set_lwg (connection_lwg s ++ rows_of cameras) (selected_items s) s).
Proof.
  induction cameras as [|cam cameras IH]; intros s.
  - cbn. rewrite app_nil_r. by destruct s.
  - rewrite for_each_cons, run_bind. unfold rows_of. cbn [List.filter].
    fold (short_name cam). fold (excluded cam).
    destruct (excluded cam); cbn [negb].
    + rewrite run_mret. apply IH.
    + cbv [lwg_addItem modify]. rewrite IH. cbn [List.map].
      cbn [connection_lwg selected_items set_lwg].
      unfold rows_of. by rewrite <- app_assoc.
Qed.

Lemma show_connections_run s :
  show_connections s
  = (Returns tt, set_selection [] (set_lwg (rows_of (camera_nodes s)) [] s)).
Proof.
  unfold show_connections.
  cbv [mbind M_bind bind modify ls_cameras gets select_clear].
  cbn [camera_nodes set_lwg]. rewrite show_connections_loop. reflexivity.
Qed.

(* ===================================================================== *)
(** ** The scene of the examples *)
(* ===================================================================== *)

Example example_gates : passes_gates (Example.scene "/tmp/out") Example.disk1.
Proof. repeat split; vm_compute; reflexivity. Qed.

Example example_selected :
  selected_sources (Example.scene "/tmp/out") = ["camX"; "camY"].
Proof. vm_compute. reflexivity. Qed.

Example example_batch :
  let '(r, s') := playblast Example.host_camY (Example.scene "/tmp/out") in
  r = Returns tt
  /\ reports (calls s') = ["Failed to create playblast for camY: capture failed"]
  /\ Posix.isdir (disk s') "/tmp/out/shotA" = true
  /\ Posix.files (disk s') = {[ ["tmp"; "out"; "shotA"; "camX.mov"] ]}.
Proof. vm_compute. repeat split; reflexivity. Qed.

(** Switching the view is outside the [try]: when it fails the exception
    leaves [playblast] and the sources after it are not visited. *)
Example example_view_failure :
  let '(r, s') := playblast Example.host_view
                    (set_selection ["camY"; "camX"] (Example.scene "/tmp/out")) in
  r = Raises (RuntimeError "no view") /\ calls s' = [LookThru "camY"].
Proof. vm_compute. split; reflexivity. Qed.

(* ===================================================================== *)
(** ** The batch: one result per source *)
(* ===================================================================== *)



(** C2 fails as stated: a batch that captured both of its sources
    displays nothing when it ends, and a batch with one failure displays
    the report of that failure and nothing more; [playblast] returns
    [None]. *)
Lemma playblast_reports_no_counts :
  (let '(r, s') := playblast Example.host_ok (Example.scene "/tmp/out") in
   r = Returns tt /\ ~ (exists message, message ∈ reports (calls s')))
  /\ (let '(r, s') := playblast Example.host_camY (Example.scene "/tmp/out") in
      r = Returns tt
      /\ reports (calls s') = [failure_message "camY" "capture failed"]).
Proof.
  split.
  - vm_compute. split; [reflexivity|]. intros [message H]. inversion H.
  - vm_compute. split; reflexivity.
Qed.

(** C2, amended. Past its gates and with a non-empty selection,
    [playblast] returns without raising whatever captures fail, and what
    it displays is one report per failed capture, in the order of the
    sources, and nothing else.  It reports no counts.  The view switches
    are assumed to succeed. *)
Theorem playblast_reports_each_failure (host : Host) (s : State) (d : Posix.FS) :
  passes_gates s d ->
  selected_sources s <> [] ->
  (forall camera, camera ∈ selected_sources s ->
                  lookThru_raises host camera = None) ->
  exists s' : State,
    playblast host s = (Returns tt, s')
    /\ reports (calls s')
       = reports (calls s)
         ++ omap (failure_report host (output_dir s)) (selected_sources s).
Proof.
  intros Hg Hsel Hview.
  destruct (playblast_batch host s d Hg Hsel Hview) as (s' & Hrun & Hcalls & _).
  exists s'. split; [exact Hrun|].
  by rewrite Hcalls, reports_app, reports_batch.
Qed.

Lemma playblast_reports_each_failure_witness :
  exists s' : State,
    playblast Example.host_camY (Example.scene "/tmp/out") = (Returns tt, s')
    /\ reports (calls s')
       = reports (calls (Example.scene "/tmp/out"))
         ++ omap (failure_report Example.host_camY
                    (output_dir (Example.scene "/tmp/out")))
                 (selected_sources (Example.scene "/tmp/out")).
Proof.
  apply (playblast_reports_each_failure Example.host_camY
           (Example.scene "/tmp/out") Example.disk1).
  - repeat split; vm_compute; reflexivity.
  - vm_compute. discriminate.
  - intros camera _. reflexivity.
Defined.

(** C3. When the normalised root is not an existing directory,
    [playblast] displays the error and returns: the state it leaves is the
    one it found with that one call added, so that no directory is made,
    no view is switched and nothing is captured. *)
Theorem invalid_root_stops (host : Host) (s : State) :
  Posix.isdir (disk s) (Posix.normpath (file_path_le s)) = false ->
  playblast host s = (Returns tt, log (DisplayError invalid_root_message) s)
  /\ disk (snd (playblast host s)) = disk s
  /\ view (snd (playblast host s)) = view s
  /\ selection (snd (playblast host s)) = selection s
  /\ calls (snd (playblast host s))
     = calls s ++ [DisplayError invalid_root_message].
Proof.
  intros Hroot.
  assert (Hrun : playblast host s
                 = (Returns tt, log (DisplayError invalid_root_message) s)).
  { unfold playblast.
    by rewrite (run_bind_returns _ _ _ _ _ (validate_rejects s Hroot)). }
  rewrite Hrun. done.
Qed.

Lemma invalid_root_stops_witness :
  playblast Example.host_ok (Example.scene "/tmp/nowhere")
  = (Returns tt,
     log (DisplayError invalid_root_message) (Example.scene "/tmp/nowhere"))
  /\ disk (snd (playblast Example.host_ok (Example.scene "/tmp/nowhere")))
     = disk (Example.scene "/tmp/nowhere")
  /\ view (snd (playblast Example.host_ok (Example.scene "/tmp/nowhere")))
     = view (Example.scene "/tmp/nowhere")
  /\ selection (snd (playblast Example.host_ok (Example.scene "/tmp/nowhere")))
     = selection (Example.scene "/tmp/nowhere")
  /\ calls (snd (playblast Example.host_ok (Example.scene "/tmp/nowhere")))
     = calls (Example.scene "/tmp/nowhere")
       ++ [DisplayError invalid_root_message].
Proof.
  apply (invalid_root_stops Example.host_ok (Example.scene "/tmp/nowhere")).
  vm_compute. reflexivity.
Defined.

(* ===================================================================== *)
(** ** The file of a source *)
(* ===================================================================== *)

Lemma has_char_mov c :
  Py.has_char c ".mov" = false -> forall name,
  Py.has_char c name = false -> Py.has_char c (name +:+ ".mov") = false.
Proof. intros Hc name Hn. by rewrite has_char_app, Hn, Hc. Qed.

(** In a directory written without a trailing slash and without
    backslashes, the movie of [name] is [dir/name.mov]. *)
Lemma movie_filename dir name :
  is_empty dir = false ->
  Py.endswith dir "/" = false ->
  Py.has_char backslash_char dir = false ->
  Py.has_char "/" name = false ->
  Py.has_char backslash_char name = false ->
  filename (playblast_args (Posix.join dir (name +:+ ".mov")))
  = dir +:+ "/" +:+ name +:+ ".mov".
Proof.
  intros Hne Hend Hbs Hslash Hbsn. cbn [filename playblast_args].
  unfold Posix.join.
  rewrite (no_slash_relative (name +:+ ".mov")) by (by apply has_char_mov).
  unfold is_empty in Hne. rewrite Hne, Hend. cbn [orb].
  apply replace_char_absent.
  rewrite has_char_app, Hbs. cbn [orb].
  change ("/" +:+ name +:+ ".mov") with (String "/" (name +:+ ".mov")).
  cbn [Py.has_char]. by rewrite has_char_mov.
Qed.

(** C4. For every selected source, [playblast] switches the view to the
    full identifier, namespace included, and then captures into the file
    named after the text that follows the last colon of the identifier:
    the identifier is its namespace prefix followed by that short name,
    the path is the join of the output directory with the short name and
    [.mov], and when the directory is written without trailing slash the
    file is [dir/short_name.mov].  For ["ns:camA"] the short name is
    ["camA"].  The view switches are assumed to succeed. *)
Theorem capture_names_file_by_short_name
  (host : Host) (s : State) (d : Posix.FS) (camera : string) :
  passes_gates s d ->
  camera ∈ selected_sources s ->
  (forall c, c ∈ selected_sources s -> lookThru_raises host c = None) ->
  (camera = namespace_prefix camera +:+ short_name camera
   /\ Py.has_char ":" (short_name camera) = false)
  /\ (exists s' before outcome,
        playblast host s = (Returns tt, s')
        /\ calls s'
           = calls s ++ before
             ++ LookThru camera
                :: Playblast
                     (playblast_args
                        (Posix.join (output_dir s)
                                    (short_name camera +:+ ".mov")))
                :: outcome)
  /\ (Py.endswith (output_dir s) "/" = false ->
      Py.has_char backslash_char (output_dir s) = false ->
      Py.has_char "/" camera = false ->
      Py.has_char backslash_char camera = false ->
      filename (playblast_args
                  (Posix.join (output_dir s) (short_name camera +:+ ".mov")))
      = output_dir s +:+ "/" +:+ short_name camera +:+ ".mov")
  /\ (short_name "ns:camA" = "camA" /\ namespace_prefix "ns:camA" = "ns:").
Proof.
  intros Hg Hin Hview.
  pose proof (item_last_split ":" camera) as [Hcam Hshort].
  fold (short_name camera) in Hcam, Hshort.
  fold (namespace_prefix camera) in Hcam.
  split; [by split|]. split; [|split].
  - assert (Hsel : selected_sources s <> []).
    { intros He. rewrite He in Hin. by apply elem_of_nil in Hin. }
    destruct (playblast_batch host s d Hg Hsel Hview) as (s' & Hrun & Hcalls & _).
    apply list_elem_of_split in Hin as (l1 & l2 & Hl).
    rewrite Hl, flat_map_app in Hcalls. cbn [flat_map] in Hcalls.
    exists s', (flat_map (capture_calls host (output_dir s)) l1).
    eexists. split; [exact Hrun|]. rewrite Hcalls.
    unfold capture_calls at 2. unfold playblast_path.
    fold (short_name camera). cbn [app]. reflexivity.
  - intros Hend Hbs Hslash Hbsc.
    rewrite Hcam in Hslash, Hbsc. rewrite has_char_app in Hslash, Hbsc.
    apply orb_false_elim in Hslash as [_ Hslash].
    apply orb_false_elim in Hbsc as [_ Hbsc].
    apply movie_filename; try done.
    unfold output_dir, Posix.abspath. apply normpath_not_empty.
  - split; reflexivity.
Qed.

Lemma capture_names_file_by_short_name_witness :
  (exists s' before outcome,
     playblast Example.host_ok (Example.namespaced "/tmp/out") = (Returns tt, s')
     /\ calls s'
        = calls (Example.namespaced "/tmp/out") ++ before
          ++ LookThru "ns:camA"
             :: Playblast
                  (playblast_args
                     (Posix.join (output_dir (Example.namespaced "/tmp/out"))
                                 (short_name "ns:camA" +:+ ".mov")))
             :: outcome)
  /\ filename
       (playblast_args
          (Posix.join (output_dir (Example.namespaced "/tmp/out"))
                      (short_name "ns:camA" +:+ ".mov")))
     = "/tmp/out/shotA/camA.mov".
Proof.
  destruct (capture_names_file_by_short_name Example.host_ok
              (Example.namespaced "/tmp/out") Example.disk1 "ns:camA")
    as (_ & Hrun & Hfile & _).
  - repeat split; vm_compute; reflexivity.
  - vm_compute. apply list_elem_of_In. right. left. reflexivity.
  - intros c _. reflexivity.
  - split; [exact Hrun|].
    rewrite Hfile; vm_compute; reflexivity.
Defined.

(* ===================================================================== *)
(** ** The shot name *)
(* ===================================================================== *)

(** C5 fails as stated: a scene saved as [.shotA.mb] has a name, yet
    [get_scene_shot_name] reports that the name is missing. *)
Lemma hidden_scene_has_no_shot_name :
  scene_name (Example.saved_as ".shotA.mb") <> ""
  /\ get_scene_shot_name (Example.saved_as ".shotA.mb")
     = (Returns "",
        log (DisplayError no_scene_name_message)
            (Example.saved_as ".shotA.mb")).
Proof. split; [discriminate | reflexivity]. Qed.

(** C5, amended. [get_scene_shot_name] works on the text of the saved
    short name before its first dot.  When that text is not empty it is
    returned and nothing is displayed; when it is empty the error is
    displayed and the empty string returned, which happens exactly when
    the saved name is empty or begins with a dot. *)
Theorem shot_name_is_text_before_first_dot (s : State) :
  (exists rest,
     scene_name s = shot_name_of s +:+ rest
     /\ (rest = "" \/ exists r, rest = String "." r)
     /\ Py.has_char "." (shot_name_of s) = false)
  /\ get_scene_shot_name s
     = (if is_empty (shot_name_of s)
        then (Returns "", log (DisplayError no_scene_name_message) s)
        else (Returns (shot_name_of s), s))
  /\ (is_empty (shot_name_of s) = true
      <-> scene_name s = "" \/ Py.startswith (scene_name s) "." = true).
Proof.
  split; [apply item_first_split|]. split; [|apply item_first_empty].
  destruct (is_empty (shot_name_of s)) eqn:He.
  - by apply shot_name_rejects.
  - by apply shot_name_returns.
Qed.

Lemma shot_name_is_text_before_first_dot_witness :
  get_scene_shot_name (Example.saved_as "shotA.v2.mb")
  = (Returns "shotA", Example.saved_as "shotA.v2.mb")
  /\ get_scene_shot_name (Example.saved_as "")
     = (Returns "", log (DisplayError no_scene_name_message) (Example.saved_as "")).
Proof.
  split.
  - exact (proj1 (proj2 (shot_name_is_text_before_first_dot
                           (Example.saved_as "shotA.v2.mb")))).
  - exact (proj1 (proj2 (shot_name_is_text_before_first_dot
                           (Example.saved_as "")))).
Defined.

(* ===================================================================== *)
(** ** The rows of the list *)
(* ===================================================================== *)

Lemma show_connections_rows s :
  connection_lwg (snd (show_connections s))
  = List.map (fun cam => Py.replace cam "Shape" "")
      (List.filter
         (fun cam => negb (bool_decide (short_name cam ∈ exclude_list)))
         (camera_nodes s)).
Proof. by rewrite show_connections_run. Qed.

(** Past a namespace prefix without ["Shape"], the scan works on the short
    name alone, and the prefix of the result is the prefix of the
    identifier. *)
Lemma replace_keeps_namespace cam :
  Py.contains (namespace_prefix cam) "Shape" = false ->
  Py.replace cam "Shape" ""
  = namespace_prefix cam +:+ Py.replace (short_name cam) "Shape" ""
  /\ namespace_prefix (Py.replace cam "Shape" "") = namespace_prefix cam.
Proof.
  intros Hc. pose proof (item_last_split ":" cam) as [Hcam Hshort].
  pose proof (upto_last_fixed ":" cam) as Hfix.
  fold (short_name cam) in Hcam, Hshort.
  fold (namespace_prefix cam) in Hcam, Hfix.
  assert (Hrep : Py.replace cam "Shape" ""
                 = namespace_prefix cam
                   +:+ Py.replace (short_name cam) "Shape" "").
  { rewrite Hcam at 1. unfold Py.replace.
    apply replace_scan_clean.
    by apply (no_match_in_prefix ":"). }
  split; [exact Hrep|]. rewrite Hrep.
  apply upto_last_app; [exact Hfix|].
  destruct (Py.has_char ":" (Py.replace (short_name cam) "Shape" "")) eqn:E;
    [|done].
  apply has_char_replace_scan in E. congruence.
Qed.

(** C6 fails as stated: the camera shape [ShapeNs:camShape] is not one of
    the reserved cameras, and the row it gets is [Ns:cam], which has lost
    a part of its namespace prefix. *)
Lemma namespace_with_shape_is_cut :
  excluded "ShapeNs:camShape" = false
  /\ connection_lwg
       (snd (show_connections (Example.with_cameras ["ShapeNs:camShape"])))
     = ["Ns:cam"]
  /\ namespace_prefix "ShapeNs:camShape" = "ShapeNs:"
  /\ namespace_prefix "Ns:cam" <> namespace_prefix "ShapeNs:camShape".
Proof. vm_compute. repeat split; try reflexivity. discriminate. Qed.

(** C6, amended. [show_connections] strips the namespace prefix for the
    membership test only: a camera is left out exactly when the text after
    its last colon is one of the four reserved shape names, so that
    [ns:perspShape] is left out, and the row of a camera that is kept is
    computed from the whole identifier.  The row keeps the namespace
    prefix of the identifier whenever that prefix does not contain
    ["Shape"]. *)
Theorem show_connections_tests_short_name (s : State) :
  connection_lwg (snd (show_connections s))
  = List.map (fun cam => Py.replace cam "Shape" "")
      (List.filter
         (fun cam => negb (bool_decide (short_name cam ∈ exclude_list)))
         (camera_nodes s))
  /\ (forall cam,
        cam = namespace_prefix cam +:+ short_name cam
        /\ Py.has_char ":" (short_name cam) = false)
  /\ (forall cam,
        Py.contains (namespace_prefix cam) "Shape" = false ->
        Py.replace cam "Shape" ""
        = namespace_prefix cam +:+ Py.replace (short_name cam) "Shape" ""
        /\ namespace_prefix (Py.replace cam "Shape" "") = namespace_prefix cam)
  /\ (short_name "ns:perspShape" = "perspShape"
      /\ excluded "ns:perspShape" = true).
Proof.
  split; [apply show_connections_rows|]. split; [|split].
  - intros cam. apply (item_last_split ":" cam).
  - apply replace_keeps_namespace.
  - split; reflexivity.
Qed.

Lemma show_connections_tests_short_name_witness :
  connection_lwg
    (snd (show_connections
            (Example.with_cameras ["ns:perspShape"; "ns:camAShape"; "topShape"])))
  = ["ns:camA"]
  /\ namespace_prefix (Py.replace "ns:camAShape" "Shape" "")
     = namespace_prefix "ns:camAShape".
Proof.
  destruct (show_connections_tests_short_name
              (Example.with_cameras ["ns:perspShape"; "ns:camAShape"; "topShape"]))
    as (Hrows & _ & Hns & _).
  split.
  - rewrite Hrows. vm_compute. reflexivity.
  - apply Hns. vm_compute. reflexivity.
Defined.

(** C7 fails as stated: for [cameraShape1], the name Maya gives the shape
    of [camera1], ["Shape"] is not at the end and is removed all the same,
    and of [ShapeCamShape] both occurrences go. *)
Lemma shape_inside_name_is_removed :
  connection_lwg
    (snd (show_connections
            (Example.with_cameras ["cameraShape1"; "ShapeCamShape"])))
  = ["camera1"; "Cam"]
  /\ strip_shape_suffix "cameraShape1" = "cameraShape1"
  /\ strip_shape_suffix "ShapeCamShape" = "ShapeCam".
Proof. vm_compute. repeat split; reflexivity. Qed.

(** C7, amended. The row of a camera that is kept is its identifier
    with every ["Shape"] removed, scanning from the left: an identifier
    without ["Shape"] is its own row, and the first ["Shape"] met is
    dropped wherever it stands, the scan going on behind it.  When the
    only ["Shape"] is the suffix, the row is the identifier without that
    suffix. *)
Theorem rows_drop_every_shape (s : State) :
  connection_lwg (snd (show_connections s))
  = List.map (fun cam => Py.replace cam "Shape" "")
      (List.filter
         (fun cam => negb (bool_decide (short_name cam ∈ exclude_list)))
         (camera_nodes s))
  /\ (forall cam,
        Py.contains cam "Shape" = false -> Py.replace cam "Shape" "" = cam)
  /\ (forall a b,
        Py.contains (a +:+ "Shap") "Shape" = false ->
        Py.replace (a +:+ "Shape" +:+ b) "Shape" ""
        = a +:+ Py.replace b "Shape" "")
  /\ (forall base,
        Py.contains (base +:+ "Shap") "Shape" = false ->
        Py.replace (base +:+ "Shape") "Shape" "" = base).
Proof.
  split; [apply show_connections_rows|]. split; [|split].
  - intros cam H. by apply replace_absent.
  - apply replace_first_shape.
  - intros base H.
    change (base +:+ "Shape") with (base +:+ "Shape" +:+ "").
    rewrite (replace_first_shape base "" H). apply str_app_empty.
Qed.

Lemma rows_drop_every_shape_witness :
  Py.replace "camX" "Shape" "" = "camX"
  /\ Py.replace ("camera" +:+ "Shape" +:+ "1") "Shape" ""
     = "camera" +:+ Py.replace "1" "Shape" ""
  /\ Py.replace ("ns:camA" +:+ "Shape") "Shape" "" = "ns:camA".
Proof.
  destruct (rows_drop_every_shape (Example.with_cameras ["camXShape"]))
    as (_ & Habsent & Hfirst & Hsuffix).
  split; [|split].
  - apply Habsent. vm_compute. reflexivity.
  - apply Hfirst. vm_compute. reflexivity.
  - apply Hsuffix. vm_compute. reflexivity.
Defined.

(* ===================================================================== *)
(** ** The output directory *)
(* ===================================================================== *)




(* ===================================================================== *)
(** ** The selection *)
(* ===================================================================== *)


Example current_selected_one :
  selection (snd (current_selected (Example.with_rows ["camX"]))) = ["camX"].
Proof. reflexivity. Qed.

Example current_selected_none :
  selection (Example.with_rows []) = ["camZ"]
  /\ selection (snd (current_selected (Example.with_rows []))) = [].
Proof. split; reflexivity. Qed.

(* ===================================================================== *)
(** ** The empty root *)
(* ===================================================================== *)

Lemma nonempty_not_empty name :
  is_empty name = false -> Posix.nonempty name = true.
Proof. unfold is_empty, Posix.nonempty. by intros ->. Qed.

Lemma shot_name_no_dot s : Py.has_char "." (shot_name_of s) = false.
Proof. by destruct (item_first_split "." (scene_name s)) as (_ & _ & _ & H). Qed.

Lemma output_path_empty_root s :
  file_path_le s = "" -> output_path s = Posix.join "." (shot_name_of s).
Proof. unfold output_path. by intros ->. Qed.

(** C10. With an empty line edit the root is not rejected: [normpath]
    turns the empty string into ["."], which names the working directory
    of the process, so that when that directory exists
    [validate_and_get_filepath] returns ["."] and displays nothing.  The
    batch goes on: the directory it makes is the child, named after the
    shot, of the working directory, and the captures go into it. *)
Theorem empty_root_is_working_directory (host : Host) (s : State) (d : Posix.FS) :
  file_path_le s = "" ->
  Posix.isabs (Posix.cwd (disk s)) = true ->
  Posix.isdir (disk s) (Posix.cwd (disk s)) = true ->
  Posix.normpath (file_path_le s) = "."
  /\ Posix.isdir (disk s) "." = true
  /\ validate_and_get_filepath s = (Returns ".", s)
  /\ (is_empty (shot_name_of s) = false ->
      Py.has_char "/" (shot_name_of s) = false ->
      Posix.makedirs (output_path s) (disk s) = inr d ->
      selected_sources s <> [] ->
      (forall camera, camera ∈ selected_sources s ->
                      lookThru_raises host camera = None) ->
      Posix.resolve (disk s) (output_path s)
      = Posix.resolve (disk s) (Posix.cwd (disk s)) ++ [shot_name_of s]
      /\ exists s',
           playblast host s = (Returns tt, s')
           /\ Posix.resolve (disk s) (Posix.cwd (disk s)) ++ [shot_name_of s]
              ∈ Posix.dirs (disk s')
           /\ calls s'
              = calls s ++ flat_map (capture_calls host (output_dir s))
                                    (selected_sources s)).
Proof.
  intros Hempty Habs Hcwd.
  assert (Hnorm : Posix.normpath (file_path_le s) = ".") by (by rewrite Hempty).
  assert (Hdot : Posix.isdir (disk s) "." = true) by (by rewrite isdir_dot).
  split; [exact Hnorm|]. split; [exact Hdot|]. split.
  { rewrite <- Hnorm. apply validate_returns. by rewrite Hnorm. }
  intros Hshot Hslash Hmk Hsel Hview.
  assert (Hres : Posix.resolve (disk s) (output_path s)
                 = Posix.resolve (disk s) (Posix.cwd (disk s))
                   ++ [shot_name_of s]).
  { rewrite (output_path_empty_root s Hempty).
    apply resolve_child;
      [exact Habs | by apply nonempty_not_empty | exact Hslash
      | apply shot_name_no_dot]. }
  split; [exact Hres|].
  assert (Hg : passes_gates s d).
  { split; [by rewrite Hnorm | by split]. }
  destruct (playblast_batch host s d Hg Hsel Hview) as (s' & Hrun & Hcalls & Hd).
  exists s'. split; [exact Hrun|]. split; [|exact Hcalls].
  rewrite Hd, <- Hres.
  destruct (makedirs_disk _ _ _ Hmk) as (_ & _ & -> & _).
  apply elem_of_union_r, elem_of_list_to_set, ancestors_self.
  rewrite Hres. by destruct (Posix.resolve (disk s) (Posix.cwd (disk s))).
Qed.

Lemma empty_root_is_working_directory_witness :
  validate_and_get_filepath (Example.scene "") = (Returns ".", Example.scene "")
  /\ exists s',
       playblast Example.host_camY (Example.scene "") = (Returns tt, s')
       /\ ["home"; "artist"; "shotA"] ∈ Posix.dirs (disk s')
       /\ calls s'
          = calls (Example.scene "")
            ++ flat_map (capture_calls Example.host_camY "/home/artist/shotA")
                        ["camX"; "camY"].
Proof.
  destruct (empty_root_is_working_directory Example.host_camY
              (Example.scene "") Example.disk2)
    as (_ & _ & Hvalid & Hbatch).
  - reflexivity.
  - reflexivity.
  - vm_compute. reflexivity.
  - split; [exact Hvalid|].
    destruct Hbatch as (_ & s' & Hrun & Hdir & Hcalls).
    + reflexivity.
    + reflexivity.
    + vm_compute. reflexivity.
    + vm_compute. discriminate.
    + intros camera _. reflexivity.
    + exists s'. split; [exact Hrun|]. split; [exact Hdir | exact Hcalls].
Defined.

(* ===================================================================== *)
(** ** Further properties of the batch *)
(* ===================================================================== *)

Lemma same_scene_refl s : same_scene s s.
Proof. by repeat split. Qed.

Lemma same_scene_trans s1 s2 s3 :
  same_scene s1 s2 -> same_scene s2 s3 -> same_scene s1 s3.
Proof.
  intros (?&?&?&?&?&?) (?&?&?&?&?&?). repeat split; congruence.
Qed.

Lemma for_each_app {A} (l1 l2 : list A) (body : A -> M unit) : forall s,
  for_each (l1 ++ l2) body s
  = (for_each l1 body ≫= fun _ => for_each l2 body) s.
Proof.
  induction l1 as [|x l1 IH]; intros s; [reflexivity|].
  cbn [app]. rewrite (run_bind (for_each (x :: l1) body)).
  rewrite !for_each_cons, !run_bind.
  destruct (body x s) as [[[]|e] s1]; [|reflexivity].
  by rewrite IH, run_bind.
Qed.

Lemma last_any_default {A} (x : A) l d d' :
  List.last (x :: l) d = List.last (x :: l) d'.
Proof.
  revert x. induction l as [|y l IH]; intros x; [reflexivity|].
  change (List.last (y :: l) d = List.last (y :: l) d'). apply IH.
Qed.

Section Frame.

Variable host : Host.

(** All that one source changes. *)
Lemma perform_playblast_state camera dir s :
  lookThru_raises host camera = None ->
  exists s',
    perform_playblast host camera dir s = (Returns tt, s')
    /\ view s' = Some camera
    /\ same_scene s s'
    /\ Posix.cwd (disk s') = Posix.cwd (disk s)
    /\ Posix.dirs (disk s') = Posix.dirs (disk s)
    /\ Posix.files (disk s')
       = Posix.files (disk s) ∪ written host (disk s) dir [camera].
Proof.
  intros Hview.
  unfold perform_playblast, lookThru, execute_playblast, Maya.playblast.
  rewrite Hview.
  cbv [mbind M_bind bind modify gets try_except raise display_error displayError].
  cbn [view set_view log].
  unfold written, captured, capture_error, movie. cbn [List.filter].
  destruct (playblast_raises host (Some camera) _) as [detail|];
    eexists; (split; [reflexivity|]); (split; [reflexivity|]);
    (split; [by repeat split|]); (split; [reflexivity|]);
    (split; [reflexivity|]); cbn.
  - by rewrite (right_id_L ∅ (∪)).
  - by rewrite (right_id_L ∅ (∪)).
Qed.

Lemma written_cons fs fs' dir camera cameras :
  Posix.cwd fs' = Posix.cwd fs ->
  written host fs dir (camera :: cameras)
  = written host fs dir [camera] ∪ written host fs' dir cameras.
Proof.
  intros Hcwd. unfold written. cbn [List.filter].
  assert (Hmap : forall l,
    List.map (fun c => Posix.resolve fs' (movie dir c)) l
    = List.map (fun c => Posix.resolve fs (movie dir c)) l).
  { intros l. apply List.map_ext. intros c.
    by apply resolve_same_cwd. }
  rewrite Hmap. destruct (captured host dir camera); cbn.
  - by rewrite (right_id_L ∅ (∪)).
  - by rewrite (left_id_L ∅ (∪)).
Qed.

Lemma for_each_perform_state dir cameras : forall s,
  (forall camera, camera ∈ cameras -> lookThru_raises host camera = None) ->
  exists s',
    for_each cameras (fun camera => perform_playblast host camera dir) s
    = (Returns tt, s')
    /\ view s' = List.last (Some <$> cameras) (view s)
    /\ same_scene s s'
    /\ Posix.cwd (disk s') = Posix.cwd (disk s)
    /\ Posix.files (disk s')
       = Posix.files (disk s) ∪ written host (disk s) dir cameras.
Proof.
  induction cameras as [|camera cameras IH]; intros s Hview.
  - exists s. split; [reflexivity|]. split; [reflexivity|].
    split; [apply same_scene_refl|]. split; [reflexivity|].
    unfold written. cbn. by rewrite (right_id_L ∅ (∪)).
  - destruct (perform_playblast_state camera dir s)
      as (s1 & Hrun & Hv & Hsame & Hcwd & _ & Hfiles).
    { apply Hview. left. }
    destruct (IH s1) as (s2 & Hrest & Hv2 & Hsame2 & Hcwd2 & Hfiles2).
    { intros c Hc. apply Hview. by right. }
    exists s2. split; [|split; [|split; [|split]]].
    + rewrite for_each_cons. by rewrite (run_bind_returns _ _ _ _ _ Hrun).
    + rewrite Hv2, Hv. cbn [fmap list_fmap].
      destruct cameras as [|c l]; [reflexivity|]. cbn [fmap list_fmap].
      change (List.last (Some camera :: Some c :: (Some <$> l)) (view s))
        with (List.last (Some c :: (Some <$> l)) (view s)).
      apply last_any_default.
    + by apply (same_scene_trans s s1 s2).
    + by rewrite Hcwd2.
    + rewrite Hfiles2, Hfiles.
      rewrite (written_cons (disk s) (disk s1) dir camera cameras Hcwd).
      by rewrite (assoc_L (∪)).
Qed.

End Frame.

(** X1. With a valid root and a saved name whose text before the first
    dot is empty, [playblast] displays the scene-name error and returns:
    no directory is made and nothing else changes. *)
Theorem missing_scene_name_stops (host : Host) (s : State) :
  Posix.isdir (disk s) (Posix.normpath (file_path_le s)) = true ->
  is_empty (shot_name_of s) = true ->
  playblast host s = (Returns tt, log (DisplayError no_scene_name_message) s).
Proof.
  intros Hroot Hshot. unfold playblast.
  rewrite (run_bind_returns _ _ _ _ _ (validate_returns s Hroot)).
  rewrite normpath_not_empty.
  by rewrite (run_bind_returns _ _ _ _ _ (shot_name_rejects s Hshot)).
Qed.

Lemma missing_scene_name_stops_witness :
  playblast Example.host_ok (Example.saved_as "")
  = (Returns tt,
     log (DisplayError no_scene_name_message) (Example.saved_as "")).
Proof.
  apply (missing_scene_name_stops Example.host_ok (Example.saved_as ""));
    vm_compute; reflexivity.
Defined.

(** X2. The selection is looked at after the output directory is made:
    with a valid root and a scene name but no camera selected,
    [playblast] leaves the directory on the disk, displays the
    no-selection error and returns without a view switch or a capture. *)
Theorem no_selection_leaves_directory (host : Host) (s : State) (d : Posix.FS) :
  passes_gates s d ->
  selected_sources s = [] ->
  Posix.resolve (disk s) (output_path s) <> [] ->
  playblast host s
  = (Returns tt, log (DisplayError no_selection_message) (set_disk d s))
  /\ Posix.isdir d (output_path s) = true.
Proof.
  intros Hg Hsel Hne. split; [by apply playblast_no_selection|].
  destruct Hg as (_ & _ & Hmk). by apply (makedirs_isdir _ _ _ Hmk).
Qed.

Lemma no_selection_leaves_directory_witness :
  playblast Example.host_ok (set_selection [] (Example.scene "/tmp/out"))
  = (Returns tt,
     log (DisplayError no_selection_message)
         (set_disk Example.disk1 (set_selection [] (Example.scene "/tmp/out"))))
  /\ Posix.isdir Example.disk1
       (output_path (set_selection [] (Example.scene "/tmp/out"))) = true.
Proof.
  apply (no_selection_leaves_directory Example.host_ok
           (set_selection [] (Example.scene "/tmp/out")) Example.disk1).
  - repeat split; vm_compute; reflexivity.
  - vm_compute. reflexivity.
  - vm_compute. discriminate.
Defined.

(** X3. When [os.makedirs] raises, the exception leaves [playblast]:
    nothing is displayed, no view is switched, nothing is captured and
    the state is the one [playblast] found. *)
Theorem makedirs_failure_leaves_playblast
  (host : Host) (s : State) (e : Exception) :
  Posix.isdir (disk s) (Posix.normpath (file_path_le s)) = true ->
  is_empty (shot_name_of s) = false ->
  Posix.makedirs (output_path s) (disk s) = inl e ->
  playblast host s = (Raises e, s).
Proof.
  intros Hroot Hshot Hmk. unfold playblast.
  rewrite (run_bind_returns _ _ _ _ _ (validate_returns s Hroot)).
  rewrite normpath_not_empty.
  rewrite (run_bind_returns _ _ _ _ _ (shot_name_returns s Hshot)).
  rewrite Hshot. fold (output_path s).
  by rewrite run_bind, ensure_directory_run, Hmk.
Qed.

Lemma makedirs_failure_leaves_playblast_witness :
  playblast Example.host_ok
    (set_disk Example.disk_file (Example.scene "/tmp/out"))
  = (Raises (OSError "[Errno 17] File exists: '/tmp/out/shotA'"),
     set_disk Example.disk_file (Example.scene "/tmp/out")).
Proof.
  apply (makedirs_failure_leaves_playblast Example.host_ok
           (set_disk Example.disk_file (Example.scene "/tmp/out")));
    vm_compute; reflexivity.
Defined.

(** X4. The view switch is not inside the [try]: when [cm.lookThru]
    raises for a source, the exception leaves [playblast]; the sources
    before it were captured, the failure is not displayed, and the
    sources after it are not visited. *)
Theorem view_failure_leaves_batch
  (host : Host) (s : State) (d : Posix.FS)
  (before after : list string) (camera msg : string) :
  passes_gates s d ->
  selected_sources s = before ++ camera :: after ->
  (forall c, c ∈ before -> lookThru_raises host c = None) ->
  lookThru_raises host camera = Some msg ->
  exists s',
    playblast host s = (Raises (RuntimeError msg), s')
    /\ calls s'
       = calls s ++ flat_map (capture_calls host (output_dir s)) before
         ++ [LookThru camera].
Proof.
  intros Hg Hsel Hbefore Hcam.
  assert (Hne : selected_sources s <> []).
  { rewrite Hsel. by destruct before. }
  rewrite (playblast_to_loop host s d Hg Hne), Hsel, for_each_app.
  destruct (for_each_perform host (output_dir s) before (set_disk d s) Hbefore)
    as (s1 & Hrun & Hcalls & _).
  rewrite (run_bind_returns _ _ _ _ _ Hrun), for_each_cons.
  rewrite (run_bind_raises_perform host camera (output_dir s) s1 msg _ Hcam).
  eexists. split; [reflexivity|].
  cbn [calls log]. rewrite Hcalls. cbn [calls set_disk].
  by rewrite <- app_assoc.
Qed.

Lemma view_failure_leaves_batch_witness :
  exists s',
    playblast Example.host_view
      (set_selection ["camX"; "camY"; "ns:camA"] (Example.scene "/tmp/out"))
    = (Raises (RuntimeError "no view"), s')
    /\ calls s'
       = calls (set_selection ["camX"; "camY"; "ns:camA"]
                  (Example.scene "/tmp/out"))
         ++ flat_map
              (capture_calls Example.host_view
                 (output_dir (set_selection ["camX"; "camY"; "ns:camA"]
                                (Example.scene "/tmp/out"))))
              ["camX"]
         ++ [LookThru "camY"].
Proof.
  apply (view_failure_leaves_batch Example.host_view
           (set_selection ["camX"; "camY"; "ns:camA"] (Example.scene "/tmp/out"))
           Example.disk1 ["camX"] ["ns:camA"] "camY" "no view").
  - repeat split; vm_compute; reflexivity.
  - vm_compute. reflexivity.
  - intros c Hc. apply list_elem_of_singleton in Hc as ->. reflexivity.
  - reflexivity.
Defined.

Lemma last_some (l : list string) (d : option string) :
  l <> [] -> List.last (Some <$> l) d = Some (List.last l "").
Proof.
  induction l as [|x l IH]; [done|]. intros _.
  destruct l as [|y l]; [reflexivity|].
  change (List.last (Some <$> y :: l) d = Some (List.last (y :: l) "")).
  by apply IH.
Qed.

Lemma written_same_cwd host fs fs' dir cameras :
  Posix.cwd fs' = Posix.cwd fs ->
  written host fs' dir cameras = written host fs dir cameras.
Proof.
  intros Hcwd. unfold written. f_equal. apply List.map_ext.
  intros c. by apply resolve_same_cwd.
Qed.

(** What a whole batch leaves behind. *)
Lemma playblast_batch_state host s d :
  passes_gates s d ->
  selected_sources s <> [] ->
  (forall camera, camera ∈ selected_sources s ->
                  lookThru_raises host camera = None) ->
  exists s',
    playblast host s = (Returns tt, s')
    /\ view s' = Some (List.last (selected_sources s) "")
    /\ same_scene s s'
    /\ Posix.files (disk s')
       = Posix.files (disk s)
         ∪ written host (disk s) (output_dir s) (selected_sources s).
Proof.
  intros Hg Hsel Hview.
  rewrite (playblast_to_loop host s d Hg Hsel).
  destruct (for_each_perform_state host (output_dir s) (selected_sources s)
              (set_disk d s) Hview) as (s' & Hrun & Hv & Hsame & _ & Hfiles).
  destruct Hg as (_ & _ & Hmk).
  destruct (makedirs_disk _ _ _ Hmk) as (Hcwd & Hf & _).
  exists s'. split; [exact Hrun|]. split; [|split].
  - rewrite Hv. by apply last_some.
  - exact Hsame.
  - rewrite Hfiles. cbn [disk set_disk].
    by rewrite Hf, (written_same_cwd host (disk s) d _ _ Hcwd).
Qed.

(** X5. A batch does not put back what it changed: when [playblast]
    returns from its loop the active view looks through the last selected
    source, while the widgets, the scene name, the cameras and the active
    selection are as before. *)
Theorem batch_leaves_view_on_last_source
  (host : Host) (s : State) (d : Posix.FS) :
  passes_gates s d ->
  selected_sources s <> [] ->
  (forall camera, camera ∈ selected_sources s ->
                  lookThru_raises host camera = None) ->
  exists s',
    playblast host s = (Returns tt, s')
    /\ view s' = Some (List.last (selected_sources s) "")
    /\ same_scene s s'.
Proof.
  intros Hg Hsel Hview.
  destruct (playblast_batch_state host s d Hg Hsel Hview)
    as (s' & Hrun & Hv & Hsame & _).
  by exists s'.
Qed.

Lemma batch_leaves_view_on_last_source_witness :
  exists s',
    playblast Example.host_camY (Example.scene "/tmp/out") = (Returns tt, s')
    /\ view s'
       = Some (List.last (selected_sources (Example.scene "/tmp/out")) "")
    /\ same_scene (Example.scene "/tmp/out") s'.
Proof.
  apply (batch_leaves_view_on_last_source Example.host_camY
           (Example.scene "/tmp/out") Example.disk1).
  - repeat split; vm_compute; reflexivity.
  - vm_compute. discriminate.
  - intros camera _. reflexivity.
Defined.

(** X6. The files a batch adds to the disk are the movies of the sources
    whose capture did not fail, and no others: a failed capture leaves no
    file of its own, and no file that was there is removed. *)
Theorem batch_writes_captured_sources
  (host : Host) (s : State) (d : Posix.FS) :
  passes_gates s d ->
  selected_sources s <> [] ->
  (forall camera, camera ∈ selected_sources s ->
                  lookThru_raises host camera = None) ->
  exists s',
    playblast host s = (Returns tt, s')
    /\ Posix.files (disk s')
       = Posix.files (disk s)
         ∪ list_to_set
             (List.map
                (fun camera =>
                   Posix.resolve (disk s) (movie (output_dir s) camera))
                (List.filter (captured host (output_dir s))
                             (selected_sources s))).
Proof.
  intros Hg Hsel Hview.
  destruct (playblast_batch_state host s d Hg Hsel Hview)
    as (s' & Hrun & _ & _ & Hfiles).
  by exists s'.
Qed.

Lemma batch_writes_captured_sources_witness :
  exists s',
    playblast Example.host_camY (Example.scene "/tmp/out") = (Returns tt, s')
    /\ Posix.files (disk s') = {[ ["tmp"; "out"; "shotA"; "camX.mov"] ]}.
Proof.
  destruct (batch_writes_captured_sources Example.host_camY
              (Example.scene "/tmp/out") Example.disk1)
    as (s' & Hrun & Hfiles).
  - repeat split; vm_compute; reflexivity.
  - vm_compute. discriminate.
  - intros camera _. reflexivity.
  - exists s'. split; [exact Hrun|]. rewrite Hfiles.
    vm_compute. reflexivity.
Defined.

(* ===================================================================== *)
(** ** Names and namespaces *)
(* ===================================================================== *)

Lemma str_app_inv_head p a b : p +:+ a = p +:+ b -> a = b.
Proof.
  induction p as [|c p IH]; [done|]. cbn. intros [= H]. by apply IH.
Qed.

Lemma upto_last_ends sep q :
  Py.upto_last sep (q +:+ String sep "") = q +:+ String sep "".
Proof.
  induction q as [|c q IH].
  - cbn. by rewrite Ascii.eqb_refl.
  - change (String c q +:+ String sep "") with (String c (q +:+ String sep "")).
    cbn [Py.upto_last].
    change (String c (q +:+ String sep "")) with (String c q +:+ String sep "") at 1.
    rewrite has_char_app. cbn [Py.has_char]. rewrite Ascii.eqb_refl.
    rewrite orb_true_r. by rewrite IH.
Qed.

(** A name written behind a prefix that ends on the separator is found
    again by the split, and so is the prefix. *)
Lemma split_last_app sep q name :
  Py.has_char sep name = false ->
  Py.item_last (Py.split sep (q +:+ String sep name)) = name
  /\ Py.upto_last sep (q +:+ String sep name) = q +:+ String sep "".
Proof.
  intros Hname.
  assert (Heq : q +:+ String sep name = (q +:+ String sep "") +:+ name).
  { by rewrite str_app_assoc. }
  assert (Hup : Py.upto_last sep (q +:+ String sep name) = q +:+ String sep "").
  { rewrite Heq. apply upto_last_app; [apply upto_last_ends | exact Hname]. }
  split; [|exact Hup].
  destruct (item_last_split sep (q +:+ String sep name)) as [Hs _].
  rewrite Hup in Hs. rewrite Heq in Hs at 1.
  apply str_app_inv_head in Hs. by symmetry.
Qed.

(** X7. The file of a source is named after its short name alone: the
    same camera name under two namespaces, or under none, gives the same
    output file, so that in one batch the later capture is written over
    the earlier one. *)
Theorem same_short_name_same_file (ns1 ns2 name dir : string) :
  Py.has_char ":" name = false ->
  short_name (ns1 +:+ ":" +:+ name) = name
  /\ playblast_path (ns1 +:+ ":" +:+ name) dir
     = playblast_path (ns2 +:+ ":" +:+ name) dir
  /\ playblast_path (ns1 +:+ ":" +:+ name) dir = playblast_path name dir
  /\ movie dir (ns1 +:+ ":" +:+ name) = movie dir (ns2 +:+ ":" +:+ name).
Proof.
  intros Hname.
  assert (H1 : forall ns, short_name (ns +:+ ":" +:+ name) = name).
  { intros ns. apply (split_last_app ":" ns name Hname). }
  assert (H0 : short_name name = name).
  { unfold short_name. by rewrite (split_single _ _ Hname). }
  assert (Hp : forall ns, playblast_path (ns +:+ ":" +:+ name) dir
                          = Posix.join dir (name +:+ ".mov")).
  { intros ns. unfold playblast_path. fold (short_name (ns +:+ ":" +:+ name)).
    by rewrite H1. }
  split; [apply H1|]. split; [by rewrite !Hp|]. split.
  - rewrite Hp. unfold playblast_path. fold (short_name name). by rewrite H0.
  - unfold movie. by rewrite !Hp.
Qed.

Lemma same_short_name_same_file_witness :
  short_name ("shotA" +:+ ":" +:+ "cam") = "cam"
  /\ playblast_path ("shotA" +:+ ":" +:+ "cam") "/tmp/out/shotA"
     = playblast_path ("lib:rig" +:+ ":" +:+ "cam") "/tmp/out/shotA".
Proof.
  destruct (same_short_name_same_file "shotA" "lib:rig" "cam" "/tmp/out/shotA")
    as (H1 & H2 & _).
  - reflexivity.
  - split; [exact H1 | exact H2].
Defined.

(** X12. Whether [show_connections] leaves a camera out depends on the
    text after its last colon alone: under any namespace, nested or not,
    a camera is left out exactly when that name is one of the four
    reserved shape names. *)
Theorem exclusion_ignores_namespace (ns name : string) :
  Py.has_char ":" name = false ->
  short_name (ns +:+ ":" +:+ name) = name
  /\ namespace_prefix (ns +:+ ":" +:+ name) = ns +:+ ":"
  /\ excluded (ns +:+ ":" +:+ name) = bool_decide (name ∈ exclude_list)
  /\ excluded (ns +:+ ":" +:+ name) = excluded name.
Proof.
  intros Hname.
  assert (Hshort : short_name (ns +:+ ":" +:+ name) = name)
    by apply (split_last_app ":" ns name Hname).
  assert (Hprefix : namespace_prefix (ns +:+ ":" +:+ name) = ns +:+ ":")
    by apply (split_last_app ":" ns name Hname).
  split; [exact Hshort|]. split; [exact Hprefix|].
  unfold excluded. rewrite Hshort. split; [reflexivity|].
  unfold short_name. by rewrite (split_single _ _ Hname).
Qed.

Lemma exclusion_ignores_namespace_witness :
  excluded ("shotA:lib" +:+ ":" +:+ "topShape") = true
  /\ excluded ("persp" +:+ ":" +:+ "camAShape") = false.
Proof.
  split.
  - destruct (exclusion_ignores_namespace "shotA:lib" "topShape")
      as (_ & _ & H & _); [reflexivity|].
    rewrite H. vm_compute. reflexivity.
  - destruct (exclusion_ignores_namespace "persp" "camAShape")
      as (_ & _ & H & _); [reflexivity|].
    rewrite H. vm_compute. reflexivity.
Defined.

(* ===================================================================== *)
(** ** The path handed to the host *)
(* ===================================================================== *)

Lemma replace_char_subst s c c' :
  Py.replace s (String c "") (String c' "") = Py.subst_char c c' s.
Proof.
  unfold Py.replace. induction s as [|a s IH]; [reflexivity|].
  cbn [Py.replace_scan Py.startswith Py.subst_char String.length Nat.sub].
  rewrite (Ascii.eqb_sym c a).
  destruct (Ascii.eqb a c); cbn; by rewrite IH.
Qed.

Lemma subst_char_clean c c' s :
  Ascii.eqb c' c = false -> Py.has_char c (Py.subst_char c c' s) = false.
Proof.
  intros Hne. induction s as [|a s IH]; [reflexivity|].
  cbn [Py.subst_char Py.has_char]. rewrite IH, orb_false_r.
  destruct (Ascii.eqb a c) eqn:E; [exact Hne | exact E].
Qed.

Lemma subst_char_length c c' s :
  String.length (Py.subst_char c c' s) = String.length s.
Proof. induction s as [|a s IH]; [reflexivity|]. cbn. by rewrite IH. Qed.

Lemma subst_char_same c s : Py.subst_char c c s = s.
Proof.
  induction s as [|a s IH]; [reflexivity|]. cbn. rewrite IH.
  destruct (Ascii.eqb a c) eqn:E; [|reflexivity].
  by apply Ascii.eqb_eq in E as ->.
Qed.

(** X8. Whatever path [execute_playblast] is given, the file name it
    hands to [cm.playblast] holds no backslash: each backslash is
    replaced by a slash in place, so that the name keeps its length, and
    a path without backslash is handed over unchanged. *)
Theorem execute_playblast_passes_no_backslash (playblast_path : string) :
  filename (playblast_args playblast_path)
  = Py.subst_char backslash_char "/" playblast_path
  /\ Py.has_char backslash_char (filename (playblast_args playblast_path))
     = false
  /\ String.length (filename (playblast_args playblast_path))
     = String.length playblast_path
  /\ (Py.has_char backslash_char playblast_path = false ->
      filename (playblast_args playblast_path) = playblast_path).
Proof.
  cbn [filename playblast_args]. unfold backslash.
  rewrite replace_char_subst.
  split; [reflexivity|]. split; [by apply subst_char_clean|].
  split; [apply subst_char_length|].
  intros H. rewrite <- replace_char_subst. by apply replace_char_absent.
Qed.

Lemma execute_playblast_passes_no_backslash_witness :
  filename (playblast_args "/tmp/out/shotA/camA.mov") = "/tmp/out/shotA/camA.mov".
Proof.
  apply (execute_playblast_passes_no_backslash "/tmp/out/shotA/camA.mov").
  vm_compute. reflexivity.
Defined.

(* ===================================================================== *)
(** ** The root and the shot name, once more *)
(* ===================================================================== *)

(** X9. [validate_and_get_filepath] never raises, and the string it
    returns is empty exactly when the root was rejected: an accepted root
    comes back as the normalised text, which is never empty, with nothing
    displayed, so that the test [if not filepath] of [playblast] tells
    the two cases apart. *)
Theorem validate_returns_empty_iff_rejected (s : State) :
  exists p s',
    validate_and_get_filepath s = (Returns p, s')
    /\ is_empty p
       = negb (Posix.isdir (disk s) (Posix.normpath (file_path_le s)))
    /\ (if is_empty p
        then s' = log (DisplayError invalid_root_message) s
        else p = Posix.normpath (file_path_le s) /\ s' = s).
Proof.
  destruct (Posix.isdir (disk s) (Posix.normpath (file_path_le s))) eqn:H.
  - exists (Posix.normpath (file_path_le s)), s.
    split; [by apply validate_returns|].
    rewrite normpath_not_empty. by split.
  - exists "", (log (DisplayError invalid_root_message) s).
    split; [by apply validate_rejects|]. by split.
Qed.

Lemma split_first_app sep stem rest :
  Py.has_char sep stem = false ->
  Py.item_first (Py.split sep (stem +:+ String sep rest)) = stem.
Proof.
  intros H. by rewrite split_app_sep, (split_single _ _ H).
Qed.

(** X10. The shot name is cut at the first dot, so that every scene file
    whose name begins with the same dot-free stem followed by a dot gets
    the same shot name and the same output directory: [shotA.mb],
    [shotA.v2.mb] and [shotA.backup.ma] all go to [shotA]. *)
Theorem same_stem_same_directory (s : State) (stem rest : string) :
  Py.has_char "." stem = false ->
  scene_name s = stem +:+ "." +:+ rest ->
  shot_name_of s = stem
  /\ output_path s = Posix.join (Posix.normpath (file_path_le s)) stem
  /\ (is_empty stem = false -> get_scene_shot_name s = (Returns stem, s)).
Proof.
  intros Hstem Hname.
  assert (Hshot : shot_name_of s = stem).
  { unfold shot_name_of. rewrite Hname. by apply split_first_app. }
  split; [exact Hshot|]. split; [unfold output_path; by rewrite Hshot|].
  intros Hne. rewrite <- Hshot. apply shot_name_returns. by rewrite Hshot.
Qed.

Lemma same_stem_same_directory_witness :
  shot_name_of (Example.saved_as "shotA.v2.mb") = "shotA"
  /\ output_path (Example.saved_as "shotA.v2.mb")
     = output_path (Example.saved_as "shotA.mb").
Proof.
  destruct (same_stem_same_directory (Example.saved_as "shotA.v2.mb")
              "shotA" "v2.mb") as (H1 & H2 & _); [reflexivity..|].
  destruct (same_stem_same_directory (Example.saved_as "shotA.mb")
              "shotA" "mb") as (_ & H3 & _); [reflexivity..|].
  split; [exact H1|]. rewrite H2, H3. reflexivity.
Defined.

(* ===================================================================== *)
(** ** Refreshing the list *)
(* ===================================================================== *)

(** X11. [show_connections] starts from an empty list: the rows it
    leaves depend on the cameras of the scene alone, not on the rows or
    the selection it found, no row is selected afterwards and the active
    selection of the scene is empty.  Refreshing twice gives what
    refreshing once gives. *)
Theorem show_connections_refreshes (s : State) :
  (forall s0, camera_nodes s0 = camera_nodes s ->
     connection_lwg (snd (show_connections s0))
     = connection_lwg (snd (show_connections s)))
  /\ selected_items (snd (show_connections s)) = []
  /\ selection (snd (show_connections s)) = []
  /\ show_connections (snd (show_connections s)) = show_connections s.
Proof.
  split; [|split; [|split]].
  - intros s0 H. rewrite !show_connections_run. cbn. by rewrite H.
  - by rewrite show_connections_run.
  - by rewrite show_connections_run.
  - rewrite !show_connections_run. reflexivity.
Qed.

Lemma show_connections_refreshes_witness :
  connection_lwg
    (snd (show_connections (Example.with_cameras ["camXShape"; "perspShape"])))
  = connection_lwg
      (snd (show_connections
              (set_lwg [] [] (Example.with_cameras ["camXShape"; "perspShape"])))).
Proof.
  destruct (show_connections_refreshes
              (set_lwg [] [] (Example.with_cameras ["camXShape"; "perspShape"])))
    as (H & _).
  apply H. reflexivity.
Defined.

Lemma show_connections_keeps_gates s d :
  passes_gates s d -> passes_gates (snd (show_connections s)) d.
Proof. rewrite show_connections_run. by intros (? & ? & ?). Qed.

(** X13. [show_connections] ends by clearing the active selection of the
    scene, and [playblast] reads its sources from that selection: a
    [playblast] that follows a refresh gets past its gates, makes the
    directory, finds no camera selected, says so and captures nothing. *)
Theorem playblast_after_refresh_finds_no_selection
  (host : Host) (s : State) (d : Posix.FS) :
  passes_gates s d ->
  selected_sources (snd (show_connections s)) = []
  /\ playblast host (snd (show_connections s))
     = (Returns tt,
        log (DisplayError no_selection_message)
            (set_disk d (snd (show_connections s)))).
Proof.
  intros Hg.
  assert (Hsel : selected_sources (snd (show_connections s)) = []).
  { by rewrite show_connections_run. }
  split; [exact Hsel|].
  apply playblast_no_selection; [by apply show_connections_keeps_gates | exact Hsel].
Qed.

Lemma playblast_after_refresh_finds_no_selection_witness :
  selected_sources (snd (show_connections (Example.scene "/tmp/out"))) = []
  /\ playblast Example.host_ok (snd (show_connections (Example.scene "/tmp/out")))
     = (Returns tt,
        log (DisplayError no_selection_message)
            (set_disk Example.disk1
               (snd (show_connections (Example.scene "/tmp/out"))))).
Proof.
  apply (playblast_after_refresh_finds_no_selection Example.host_ok
           (Example.scene "/tmp/out") Example.disk1).
  repeat split; vm_compute; reflexivity.
Defined.

(* ===================================================================== *)
(** ** The directory, once more *)
(* ===================================================================== *)





(* ===================================================================== *)
(** ** The directory dialog *)
(* ===================================================================== *)

(** X15. [show_file_select_dialog] writes what the dialog returns into
    the line edit without looking at it: a cancelled dialog, which
    returns the empty string, erases the path that was there, and the
    root [validate_and_get_filepath] then accepts is ["."], the working
    directory of the process. *)
Theorem cancelled_dialog_erases_the_root (chosen : string) (s : State) :
  show_file_select_dialog chosen s = (Returns tt, set_file_path chosen s)
  /\ file_path_le (snd (show_file_select_dialog chosen s)) = chosen
  /\ (Posix.isabs (Posix.cwd (disk s)) = true ->
      Posix.isdir (disk s) (Posix.cwd (disk s)) = true ->
      validate_and_get_filepath (snd (show_file_select_dialog "" s))
      = (Returns ".", snd (show_file_select_dialog "" s))).
Proof.
  split; [reflexivity|]. split; [reflexivity|].
  intros Habs Hcwd. cbn [snd show_file_select_dialog modify].
  change (Returns ".") with (Returns (A:=string)
    (Posix.normpath (file_path_le (set_file_path "" s)))).
  apply validate_returns. cbn [file_path_le set_file_path disk].
  change (Posix.normpath "") with ".". by rewrite isdir_dot.
Qed.

Lemma cancelled_dialog_erases_the_root_witness :
  file_path_le (Example.scene "/tmp/out") = "/tmp/out"
  /\ validate_and_get_filepath
       (snd (show_file_select_dialog "" (Example.scene "/tmp/out")))
     = (Returns ".", snd (show_file_select_dialog "" (Example.scene "/tmp/out"))).
Proof.
  destruct (cancelled_dialog_erases_the_root "" (Example.scene "/tmp/out"))
    as (_ & _ & H).
  split; [reflexivity|]. apply H; vm_compute; reflexivity.
Defined.

(* ===================================================================== *)
(** ** The installer *)
(* ===================================================================== *)

Lemma not_empty_app d x : is_empty d = false -> is_empty (d +:+ x) = false.
Proof. by destruct d. Qed.

Lemma rstrip_app_sep c d :
  is_empty d = false ->
  Py.endswith d (String c "") = false ->
  Py.all_char c (d +:+ String c "") = false
  /\ Py.rstrip c (d +:+ String c "") = d.
Proof.
  induction d as [|a d IH]; [done|]. intros _.
  cbn [Py.endswith]. intros [Hhere Hlater]%orb_false_elim.
  destruct d as [|b d].
  - cbn in Hhere. destruct (Ascii.eqb a c) eqn:Hac; [discriminate|].
    cbn. by rewrite Hac, Ascii.eqb_refl.
  - destruct (IH eq_refl Hlater) as [Hall Hstrip].
    change (String a (String b d) +:+ String c "")
      with (String a (String b d +:+ String c "")).
    cbn [Py.all_char Py.rstrip]. rewrite Hall, andb_false_r.
    split; [reflexivity|]. by rewrite Hstrip.
Qed.

Lemma endswith_app_char a b c :
  is_empty b = false ->
  Py.endswith (a +:+ b) (String c "") = Py.endswith b (String c "").
Proof.
  intros Hb. induction a as [|x a IH]; [reflexivity|].
  change (String x a +:+ b) with (String x (a +:+ b)).
  cbn [Py.endswith]. rewrite IH.
  assert (He : String.eqb (String x (a +:+ b)) (String c "") = false).
  { cbn. destruct (a +:+ b) eqn:E; [|apply andb_false_r].
    destruct a; [|discriminate]. cbn in E. by rewrite E in Hb. }
  by rewrite He.
Qed.

(** The directory of [d/fname] is [d]. *)
Lemma dirname_join d fname :
  is_empty d = false ->
  Py.endswith d "/" = false ->
  Py.has_char "/" fname = false ->
  Posix.dirname (d +:+ "/" +:+ fname) = d.
Proof.
  intros Hd Hend Hf. unfold Posix.dirname.
  assert (Hup : Py.upto_last "/" (d +:+ "/" +:+ fname) = d +:+ "/")
    by apply (split_last_app "/" d fname Hf).
  rewrite Hup. destruct (rstrip_app_sep "/" d Hd Hend) as [Hall Hstrip].
  change (d +:+ "/") with (d +:+ String "/" "").
  rewrite Hall, Hstrip.
  fold (is_empty (d +:+ String "/" "")). by rewrite not_empty_app.
Qed.

(** X16. The icon of the shelf button is looked for beside the
    installer: for an installer file [d/fname] the path handed to
    [cm.shelfButton] is [d/icons/camera_icon.png]. *)
Theorem icon_is_beside_the_installer (sh : Install.Shelves) (d fname : string) :
  is_empty d = false ->
  Py.endswith d "/" = false ->
  Py.has_char "/" fname = false ->
  Install.file sh = d +:+ "/" +:+ fname ->
  Install.icon_path sh = d +:+ "/icons/camera_icon.png".
Proof.
  intros Hd Hend Hf Hfile. unfold Install.icon_path, Posix.sep.
  rewrite replace_char_subst, subst_char_same, Hfile.
  rewrite (dirname_join d fname Hd Hend Hf).
  assert (Hicons : Posix.join d "icons" = d +:+ "/icons").
  { unfold Posix.join. unfold is_empty in Hd. by rewrite Hd, Hend. }
  rewrite Hicons. unfold Posix.join, Install.imageName.
  rewrite (endswith_app_char d "/icons" "/" eq_refl).
  fold (is_empty (d +:+ "/icons")). rewrite (not_empty_app _ _ Hd).
  cbn [Py.startswith Py.endswith orb]. cbn. by rewrite str_app_assoc.
Qed.

Lemma icon_is_beside_the_installer_witness :
  Install.icon_path
    (Install.mkShelves "/home/artist/maya/scripts/CameraAutoPlayblast/drag_drop_install.py"
       "ShelfLayout" (fun _ => "Custom") [])
  = "/home/artist/maya/scripts/CameraAutoPlayblast" +:+ "/icons/camera_icon.png".
Proof.
  apply (icon_is_beside_the_installer _
           "/home/artist/maya/scripts/CameraAutoPlayblast"
           "drag_drop_install.py"); vm_compute; reflexivity.
Defined.

Lemma drop_keeps_shelves {A} (obj : A) sh :
  Install.button_of (Install.onMayaDroppedPythonFile obj sh)
  = Install.button_of sh.
Proof. reflexivity. Qed.

(** X17. Every drop of the installer adds one button to the shelf that
    is selected, whatever is dropped and whatever buttons the shelf
    holds: the installer does not look for a button it made before, so
    that [n] drops leave [n] buttons that are the same. *)
Theorem every_drop_adds_a_button {A : Type} (objs : list A) (sh : Install.Shelves) :
  Install.buttons (Install.drops objs sh)
  = Install.buttons sh ++ repeat (Install.button_of sh) (length objs)
  /\ Install.parent (Install.button_of sh)
     = Install.selected_tab sh (Install.gShelfTopLevel sh)
  /\ Install.file (Install.drops objs sh) = Install.file sh.
Proof.
  split; [|split; [reflexivity|]].
  - revert sh. induction objs as [|obj objs IH]; intros sh.
    + cbn. by rewrite app_nil_r.
    + cbn [Install.drops length repeat]. rewrite IH, drop_keeps_shelves.
      cbn [Install.buttons Install.onMayaDroppedPythonFile].
      fold (Install.button_of sh). by rewrite <- app_assoc.
  - revert sh. induction objs as [|obj objs IH]; intros sh; [reflexivity|].
    cbn [Install.drops]. by rewrite IH.
Qed.

(* ===================================================================== *)
(** ** The window *)
(* ===================================================================== *)

Lemma one_instance_step cls e :
  Window.one_instance cls -> Window.one_instance (Window.step cls e).
Proof.
  unfold Window.one_instance. destruct cls as [[w|] n]; destruct e as [place| |place];
    cbn; try done.
  - by destruct (Window.hidden w).
  - by intros ->.
Qed.

Lemma one_instance_run events : forall cls,
  Window.one_instance cls -> Window.one_instance (Window.run events cls).
Proof.
  induction events as [|e events IH]; intros cls H; [exact H|].
  apply IH. by apply one_instance_step.
Qed.

Lemma display_shows place cls :
  Window.one_instance cls ->
  Window.built (Window.display place cls) = 1
  /\ exists w, Window.dlg_instance (Window.display place cls) = Some w
               /\ Window.hidden w = false.
Proof.
  unfold Window.one_instance. destruct cls as [[w|] n]; cbn.
  - intros ->. destruct (Window.hidden w) eqn:Hh; cbn.
    + split; [reflexivity|]. eexists. split; [reflexivity|].
      unfold Window.show, Window.showEvent. rewrite Hh. cbn.
      by destruct (Window.geometry w).
    + split; [reflexivity|]. eexists. split; [reflexivity|]. exact Hh.
  - intros ->. split; [reflexivity|]. by eexists.
Qed.

(** X18. [display] keeps to one window: whatever displays, closes and
    moves came before, starting from the class as loaded, at most one
    [MainWindow] has been built, and after a [display] exactly one has
    and it is visible. *)
Theorem display_keeps_one_window (events : list Window.Event) (place : string) :
  Window.built (Window.run events Window.loaded) <= 1
  /\ Window.built (Window.run (events ++ [Window.Display place]) Window.loaded) = 1
  /\ exists w,
       Window.dlg_instance
         (Window.run (events ++ [Window.Display place]) Window.loaded) = Some w
       /\ Window.hidden w = false.
Proof.
  assert (Hinv : Window.one_instance (Window.run events Window.loaded)).
  { by apply one_instance_run. }
  split.
  - unfold Window.one_instance in Hinv.
    destruct (Window.dlg_instance _); lia.
  - unfold Window.run in *. rewrite fold_left_app. cbn [fold_left Window.step].
    by apply display_shows.
Qed.

(** X19. What [closeEvent] saves, the next [showEvent] restores: a
    visible window that is closed and displayed again is put back where
    it stood when it was closed, wherever the window system would show
    it, while the first display of a window restores nothing. *)
Theorem closed_window_comes_back_in_place
  (w : Window.Dialog) (n : nat) (place : string) :
  Window.hidden w = false ->
  Window.run [Window.Close; Window.Display place] (Window.mkClass (Some w) n)
  = Window.mkClass
      (Some (Window.mkDialog false (Window.placement w)
               (Some (Window.placement w))
               (Window.qt_calls w
                ++ [Window.RestoreGeometry (Window.placement w)])))
      n
  /\ Window.run [Window.Display place] Window.loaded
     = Window.mkClass (Some (Window.mkDialog false place None [])) 1.
Proof.
  intros Hh. split; [|reflexivity].
  destruct w as [h g saved log]. cbn in Hh. subst h. reflexivity.
Qed.

Lemma closed_window_comes_back_in_place_witness :
  Window.run [Window.Display "100,100"; Window.Move "640,480"; Window.Close;
              Window.Display "100,100"] Window.loaded
  = Window.mkClass
      (Some (Window.mkDialog false "640,480" (Some "640,480")
               [Window.RestoreGeometry "640,480"]))
      1.
Proof.
  change (Window.run [Window.Display "100,100"; Window.Move "640,480";
                      Window.Close; Window.Display "100,100"] Window.loaded)
    with (Window.run [Window.Close; Window.Display "100,100"]
            (Window.mkClass
               (Some (Window.mkDialog false "640,480" None [])) 1)).
  apply (closed_window_comes_back_in_place
           (Window.mkDialog false "640,480" None []) 1 "100,100").
  reflexivity.
Defined.
